(** * producer.c: an AMQP 1.0 producer over qpid-proton, as a state machine

    A shallow embedding of [src/producer.c].  The program is a single
    event handler [handle] driven by the loop [run]; it mutates one
    [app_data_t] and the global [exit_code], and talks to the proton
    library.  Here the mutable data is threaded explicitly in a record
    [state]; every library call that acts on the connection, and every
    line printed, is appended to the [calls] log of that record; what the
    library answers (the link credit, the remote state of a delivery, the
    conditions attached to an endpoint) is read off the event.

    Library functions whose code is not part of [producer.c] and whose
    answer the program branches on are parameters of the development:
    [get_data_map_string_property] and [amqp_destination_address] (from
    util.h), [pn_message_encode] and [pn_data_format] (from proton).

    [malloc], [realloc], [free], [strdup] and [pn_message_free] act on
    memory only: an allocation is taken to succeed, and of a buffer only
    its size and whether it is allocated are kept. *)

From Stdlib Require Import NArith DecimalFacts.
From Stdlib Require Import ZArith List String Ascii Bool Lia.
From Stdlib Require Import Decimal DecimalString DecimalZ DecimalPos.
Import ListNotations.

Open Scope Z_scope.

(** ** Machine integers *)

(** [int] is 32 bits wide; [++] on an [int] is modelled with two's
    complement wrap-around. *)
Definition INT_MAX : Z := 2147483647.

Definition int_wrap (x : Z) : Z := (x + 2 ^ 31) mod 2 ^ 32 - 2 ^ 31.

Definition int_incr (x : Z) : Z := int_wrap (x + 1).

(** [size_t] is 64 bits wide; [*= 2] wraps modulo [2^64]. *)
Definition size_wrap (x : Z) : Z := x mod 2 ^ 64.

Definition size_double (x : Z) : Z := size_wrap (x * 2).

(** proton/error.h *)
Definition PN_OVERFLOW : Z := -3.

(** proton/disposition.h *)
Definition PN_ACCEPTED : Z := 36.

(** proton/proactor.h *)
Definition PN_MAX_ADDR : Z := 1060.

(** ** Strings *)

Definition nl : string := String (ascii_of_nat 10) EmptyString.

(** The text [sprintf] writes for [%d]. *)
Definition decimal (n : Z) : string := NilZero.string_of_int (Z.to_int n).

(** [sprintf(sbuf, "sequence_%d", n)]: the text written; the value
    returned is its length. *)
Definition sprintf_sequence (n : Z) : string := ("sequence_" ++ decimal n)%string.

(** The number a body of the form [sequence_<n>] carries. *)
Definition sequence_number (s : string) : option Z :=
  if String.prefix "sequence_" s
  then option_map Z.of_int
         (NilZero.int_of_string (String.substring 9 (String.length s - 9) s))
  else None.

(** ** Delivery tags

    [pn_dtag] applied to the address of [app->sent] and [sizeof(app->sent)]: the four bytes
    of the [int], in the byte order of the machine (least significant
    byte first here). *)
Definition pn_dtag (x : Z) : list Z :=
  let u := x mod 2 ^ 32 in
  [u mod 256; (u / 256) mod 256; (u / 65536) mod 256; (u / 16777216) mod 256].

(** The [int] a tag holds. *)
Definition dtag_int (tag : list Z) : Z :=
  int_wrap (fold_right (fun b acc => b + 256 * acc) 0 tag).

(** ** Data of the proton library *)

(** An AMQP value, as far as the program looks at one. *)
#[warning="-register-all"]
Inductive pn_data_t : Type :=
| PN_NULL
| PN_STRING (s : string)
| PN_SYMBOL (s : string)
| PN_LONG (n : Z)
| PN_MAP (entries : list (pn_data_t * pn_data_t)).

Definition pn_data_is_null (d : pn_data_t) : bool :=
  match d with PN_NULL => true | _ => false end.

Record pn_condition_t : Type := {
  pn_condition_is_set : bool;
  pn_condition_get_name : string;
  pn_condition_get_description : string;
  pn_condition_info : option pn_data_t
}.

Record pn_delivery_t : Type := {
  pn_delivery_tag : list Z;
  pn_delivery_remote_state : Z;
  (** [pn_disposition_condition(pn_delivery_remote(d))] *)
  pn_disposition_condition : pn_condition_t
}.

(** The message [encode_message] builds: the string put in the body and
    the durable flag. *)
Record pn_message_t : Type := {
  pn_message_body : option string;
  pn_message_is_durable : bool
}.

(** [pn_message()]: an empty message. *)
Definition pn_message : pn_message_t :=
  {| pn_message_body := None; pn_message_is_durable := false |}.

Definition pn_data_put_string (m : pn_message_t) (s : string) : pn_message_t :=
  {| pn_message_body := Some s; pn_message_is_durable := pn_message_is_durable m |}.

Definition pn_message_set_durable (m : pn_message_t) (b : bool) : pn_message_t :=
  {| pn_message_body := pn_message_body m; pn_message_is_durable := b |}.

(** The [size] of an allocation and whether [start] is non-NULL. *)
Record pn_rwbytes_t : Type := {
  size : Z;
  start : bool
}.

(** The bytes [encode_message] returns: their number, and the message
    they are the encoding of. *)
Record pn_bytes_t : Type := {
  bytes_size : Z;
  bytes_of : pn_message_t
}.

(** The event kinds [handle] has a case for; every other kind of the
    library's enumeration is [PN_EVENT_OTHER], with its name. *)
Inductive pn_event_type_t : Type :=
| PN_CONNECTION_INIT
| PN_CONNECTION_REMOTE_OPEN
| PN_LINK_FLOW
| PN_DELIVERY
| PN_TRANSPORT_CLOSED
| PN_CONNECTION_REMOTE_CLOSE
| PN_SESSION_REMOTE_CLOSE
| PN_LINK_REMOTE_CLOSE
| PN_LINK_REMOTE_DETACH
| PN_PROACTOR_INACTIVE
| PN_EVENT_OTHER (name : string).

Definition pn_event_type_name (t : pn_event_type_t) : string :=
  match t with
  | PN_CONNECTION_INIT => "PN_CONNECTION_INIT"
  | PN_CONNECTION_REMOTE_OPEN => "PN_CONNECTION_REMOTE_OPEN"
  | PN_LINK_FLOW => "PN_LINK_FLOW"
  | PN_DELIVERY => "PN_DELIVERY"
  | PN_TRANSPORT_CLOSED => "PN_TRANSPORT_CLOSED"
  | PN_CONNECTION_REMOTE_CLOSE => "PN_CONNECTION_REMOTE_CLOSE"
  | PN_SESSION_REMOTE_CLOSE => "PN_SESSION_REMOTE_CLOSE"
  | PN_LINK_REMOTE_CLOSE => "PN_LINK_REMOTE_CLOSE"
  | PN_LINK_REMOTE_DETACH => "PN_LINK_REMOTE_DETACH"
  | PN_PROACTOR_INACTIVE => "PN_PROACTOR_INACTIVE"
  | PN_EVENT_OTHER name => name
  end.

(** An event, with what the library answers when the handler asks about
    the objects the event belongs to. *)
Record pn_event_t : Type := {
  pn_event_type : pn_event_type_t;
  (** [pn_connection_remote_properties(pn_event_connection(e))] *)
  pn_connection_remote_properties : pn_data_t;
  (** [pn_link_credit(pn_event_link(e))] when the handler starts *)
  pn_link_credit : Z;
  pn_event_delivery : pn_delivery_t;
  pn_transport_condition : pn_condition_t;
  pn_connection_remote_condition : pn_condition_t;
  pn_session_remote_condition : pn_condition_t;
  pn_link_remote_condition : pn_condition_t
}.

(** ** The program's data *)

Record app_data_t : Type := {
  host : string;
  port : string;
  username : option string;
  password : option string;
  amqp_address : string;
  amqp_topic_prefix : string;
  container_id : string;
  message_count : Z;
  message_buffer : pn_rwbytes_t;
  sent : Z;
  acknowledged : Z
}.

Definition set_amqp_topic_prefix (a : app_data_t) (p : string) : app_data_t :=
  {| host := host a; port := port a; username := username a;
     password := password a; amqp_address := amqp_address a;
     amqp_topic_prefix := p; container_id := container_id a;
     message_count := message_count a; message_buffer := message_buffer a;
     sent := sent a; acknowledged := acknowledged a |}.

Definition set_message_buffer (a : app_data_t) (b : pn_rwbytes_t) : app_data_t :=
  {| host := host a; port := port a; username := username a;
     password := password a; amqp_address := amqp_address a;
     amqp_topic_prefix := amqp_topic_prefix a; container_id := container_id a;
     message_count := message_count a; message_buffer := b;
     sent := sent a; acknowledged := acknowledged a |}.

Definition set_sent (a : app_data_t) (n : Z) : app_data_t :=
  {| host := host a; port := port a; username := username a;
     password := password a; amqp_address := amqp_address a;
     amqp_topic_prefix := amqp_topic_prefix a; container_id := container_id a;
     message_count := message_count a; message_buffer := message_buffer a;
     sent := n; acknowledged := acknowledged a |}.

Definition set_acknowledged (a : app_data_t) (n : Z) : app_data_t :=
  {| host := host a; port := port a; username := username a;
     password := password a; amqp_address := amqp_address a;
     amqp_topic_prefix := amqp_topic_prefix a; container_id := container_id a;
     message_count := message_count a; message_buffer := message_buffer a;
     sent := sent a; acknowledged := n |}.

(** The calls the program makes on the connection and what it prints, in
    the order made. *)
Inductive call : Type :=
| pn_connection_set_user (u : string)
| pn_connection_set_password (p : option string)
| pn_connection_set_container (id : string)
| pn_connection_open
| pn_session_open
| pn_sender (name : string)
| pn_terminus_set_address (address : string)
| pn_link_open
| pn_delivery (tag : list Z)
| pn_link_send (bytes : pn_bytes_t)
| pn_link_advance
| pn_connection_close
| printf (text : string)
| fprintf_stderr (text : string).

Record state : Type := {
  app : app_data_t;
  exit_code : Z;
  calls : list call
}.

(** ** Effects: a state monad with [exit] and running out of fuel *)

Inductive outcome (A : Type) : Type :=
| Returns (a : A) (s : state)
| Exits (status : Z) (s : state)
| OutOfFuel.

Arguments Returns {A} a s.
Arguments Exits {A} status s.
Arguments OutOfFuel {A}.

Definition M (A : Type) : Type := state -> outcome A.

Definition ret {A : Type} (a : A) : M A := fun s => Returns a s.

Definition bind {A B : Type} (m : M A) (k : A -> M B) : M B :=
  fun s => match m s with
           | Returns a s' => k a s'
           | Exits status s' => Exits status s'
           | OutOfFuel => OutOfFuel
           end.

Notation "x <- m ;; k" := (bind m (fun x => k))
  (at level 61, m at next level, right associativity).
Notation "m ;; k" := (bind m (fun _ => k))
  (at level 61, right associativity).

Definition get_app : M app_data_t := fun s => Returns (app s) s.

Definition put_app (a : app_data_t) : M unit :=
  fun s => Returns tt {| app := a; exit_code := exit_code s; calls := calls s |}.

Definition set_exit_code (c : Z) : M unit :=
  fun s => Returns tt {| app := app s; exit_code := c; calls := calls s |}.

Definition do_call (c : call) : M unit :=
  fun s => Returns tt {| app := app s; exit_code := exit_code s;
                         calls := calls s ++ [c] |}.

Definition exit {A : Type} (status : Z) : M A := fun s => Exits status s.

Definition out_of_fuel {A : Type} : M A := fun _ => OutOfFuel.

(** ** The library

    The functions the program calls and branches on, whose code is not in
    [producer.c]. *)
Class Library : Type := {
  (** util.h: looks [key] up in a map of properties and writes the value
      into a buffer of [len] bytes; the value returned and the text in
      the buffer. *)
  get_data_map_string_property : pn_data_t -> string -> Z -> Z * string;
  (** util.h: [amqp_destination_address(dest, dest_size, address, ..,
      prefix, ..)]; the value returned and the text written to [dest]. *)
  amqp_destination_address : Z -> string -> string -> Z * string;
  (** proton: [pn_message_encode(message, bytes, &size)] on a buffer of
      [size] bytes; the status returned and the [size] written back. *)
  pn_message_encode : pn_message_t -> Z -> Z * Z;
  (** proton: [pn_data_format(data, bytes, &size)]; the status returned,
      the [size] written back and the text in the buffer. *)
  pn_data_format : pn_data_t -> Z -> Z * Z * string;
  (** proton: [pn_error_text(pn_message_error(message))] *)
  pn_error_text : pn_message_t -> string
}.

Section Producer.

Context {lib : Library}.

(** *** check_condition *)

(** The [do .. while (rc == PN_OVERFLOW)] loop of [check_condition]. *)
Fixpoint format_loop (fuel : nat) (info : pn_data_t) (len : Z) : M string :=
  match fuel with
  | O => out_of_fuel
  | S fuel' =>
      let '(rc, len', buf) := pn_data_format info len in
      if rc =? PN_OVERFLOW
      then format_loop fuel' info (size_double len')
      else ret buf
  end.

Definition check_condition (fuel : nat) (e : pn_event_t) (cond : pn_condition_t)
  : M unit :=
  if pn_condition_is_set cond then
    do_call (fprintf_stderr
               (pn_event_type_name (pn_event_type e) ++ ": " ++
                pn_condition_get_name cond ++ ": " ++
                pn_condition_get_description cond ++ nl)%string) ;;
    match pn_condition_info cond with
    | Some info =>
        if negb (pn_data_is_null info) then
          buf <- format_loop fuel info 128 ;;
          do_call (fprintf_stderr ("Err info: " ++ buf ++ nl)%string)
        else ret tt
    | None => ret tt
    end ;;
    do_call pn_connection_close ;;
    set_exit_code 1
  else ret tt.

(** *** set_topic_prefix_from_connection *)

Definition TOPIC_PREFIX_KEY : string := "topic-prefix".

Definition set_topic_prefix_from_connection (e : pn_event_t) : M Z :=
  let properties := pn_connection_remote_properties e in
  let amqp_topic_prefix_len := 255 in
  let '(rc, amqp_topic_prefix) :=
    get_data_map_string_property properties TOPIC_PREFIX_KEY amqp_topic_prefix_len in
  (if 0 <? rc then
     a <- get_app ;;
     put_app (set_amqp_topic_prefix a amqp_topic_prefix)
   else ret tt) ;;
  ret rc.

(** *** encode_message *)

(** The [while (.. == PN_OVERFLOW)] loop: [mbuf] is the whole of
    [app->message_buffer] at every attempt. *)
Fixpoint encode_loop (fuel : nat) (message : pn_message_t) : M (Z * Z) :=
  match fuel with
  | O => out_of_fuel
  | S fuel' =>
      a <- get_app ;;
      let '(status, mbuf_size) :=
        pn_message_encode message (size (message_buffer a)) in
      if status =? PN_OVERFLOW then
        put_app (set_message_buffer a
                   {| size := size_double (size (message_buffer a));
                      start := true |}) ;;
        encode_loop fuel' message
      else ret (status, mbuf_size)
  end.

Definition encode_message (fuel : nat) : M pn_bytes_t :=
  a <- get_app ;;
  let message := pn_message in
  let sbuf := sprintf_sequence (sent a) in
  let swritten := Z.of_nat (String.length sbuf) in
  if swritten <? 0 then
    do_call (fprintf_stderr
               ("error writing message body string for sequence "
                ++ decimal (sent a))%string) ;;
    exit 1
  else
    let message := pn_data_put_string message sbuf in
    let message := pn_message_set_durable message true in
    (if negb (start (message_buffer a)) then
       put_app (set_message_buffer a {| size := 128; start := true |})
     else ret tt) ;;
    r <- encode_loop fuel message ;;
    let '(status, mbuf_size) := r in
    if negb (status =? 0) then
      do_call (fprintf_stderr
                 ("error encoding message: " ++ pn_error_text message ++ nl)%string) ;;
      exit 1
    else
      ret {| bytes_size := mbuf_size; bytes_of := message |}.

(** *** handle *)

(** The [while] loop of the [PN_LINK_FLOW] case.  [credit] is what
    [pn_link_credit(sender)] answers: [pn_link_advance] takes one unit of
    it, so the loop is by recursion on it. *)
Fixpoint send_loop (fuel : nat) (credit : nat) : M unit :=
  match credit with
  | O => ret tt
  | S credit' =>
      a <- get_app ;;
      if sent a <? message_count a then
        put_app (set_sent a (int_incr (sent a))) ;;
        a <- get_app ;;
        do_call (pn_delivery (pn_dtag (sent a))) ;;
        msgbuf <- encode_message fuel ;;
        do_call (pn_link_send msgbuf) ;;
        do_call pn_link_advance ;;
        send_loop fuel credit'
      else ret tt
  end.

(** Returns true to continue, false if finished. *)
Definition handle (fuel : nat) (event : pn_event_t) : M bool :=
  match pn_event_type event with
  | PN_CONNECTION_INIT =>
      a <- get_app ;;
      match username a with
      | Some u =>
          do_call (pn_connection_set_user u) ;;
          do_call (pn_connection_set_password (password a))
      | None => ret tt
      end ;;
      do_call (pn_connection_set_container (container_id a)) ;;
      do_call pn_connection_open ;;
      ret true
  | PN_CONNECTION_REMOTE_OPEN =>
      set_topic_prefix_from_connection event ;;
      do_call pn_session_open ;;
      do_call (pn_sender "my_sender") ;;
      a <- get_app ;;
      let '(rc, amqp_topic) :=
        amqp_destination_address PN_MAX_ADDR (amqp_address a) (amqp_topic_prefix a) in
      if rc <? 0 then
        set_exit_code 1 ;;
        ret false
      else
        do_call (printf ("setting amqp topic:'" ++ amqp_topic ++ "'" ++ nl)%string) ;;
        do_call (pn_terminus_set_address amqp_topic) ;;
        do_call pn_link_open ;;
        ret true
  | PN_LINK_FLOW =>
      send_loop fuel (Z.to_nat (pn_link_credit event)) ;;
      ret true
  | PN_DELIVERY =>
      let d := pn_event_delivery event in
      if pn_delivery_remote_state d =? PN_ACCEPTED then
        a <- get_app ;;
        put_app (set_acknowledged a (int_incr (acknowledged a))) ;;
        a <- get_app ;;
        (if acknowledged a =? message_count a then
           do_call (printf (decimal (acknowledged a)
                            ++ " messages sent and acknowledged" ++ nl)%string) ;;
           do_call pn_connection_close
         else ret tt) ;;
        ret true
      else
        do_call (fprintf_stderr
                   ("unexpected delivery state "
                    ++ decimal (int_wrap (pn_delivery_remote_state d)) ++ nl)%string) ;;
        check_condition fuel event (pn_disposition_condition d) ;;
        do_call pn_connection_close ;;
        set_exit_code 1 ;;
        ret true
  | PN_TRANSPORT_CLOSED =>
      check_condition fuel event (pn_transport_condition event) ;;
      ret true
  | PN_CONNECTION_REMOTE_CLOSE =>
      check_condition fuel event (pn_connection_remote_condition event) ;;
      do_call pn_connection_close ;;
      ret true
  | PN_SESSION_REMOTE_CLOSE =>
      check_condition fuel event (pn_session_remote_condition event) ;;
      do_call pn_connection_close ;;
      ret true
  | PN_LINK_REMOTE_CLOSE
  | PN_LINK_REMOTE_DETACH =>
      check_condition fuel event (pn_link_remote_condition event) ;;
      do_call pn_connection_close ;;
      ret true
  | PN_PROACTOR_INACTIVE => ret false
  | PN_EVENT_OTHER _ => ret true
  end.

(** *** run *)

(** The [for] loop over one batch: [true] when the batch is used up,
    [false] when [handle] said to stop. *)
Fixpoint run_batch (fuel : nat) (events : list pn_event_t) : M bool :=
  match events with
  | [] => ret true
  | e :: events' =>
      continue <- handle fuel e ;;
      if continue then run_batch fuel events' else ret false
  end.

(** The [do .. while (true)] loop over the batches [pn_proactor_wait]
    hands out, each given back with [pn_proactor_done]: [false] when
    [run] has returned, [true] when it is back in [pn_proactor_wait]
    with every batch handled. *)
Fixpoint run (fuel : nat) (batches : list (list pn_event_t)) : M bool :=
  match batches with
  | [] => ret true
  | events :: batches' =>
      continue <- run_batch fuel events ;;
      if continue then run fuel batches' else ret false
  end.

End Producer.

(** ** Vocabulary of the statements *)

(** The values of an [int]. *)
Definition int_range (x : Z) : Prop := - 2 ^ 31 <= x <= INT_MAX.

(** The message [encode_message] builds when [app->sent] is [n]. *)
Definition message_for (n : Z) : pn_message_t :=
  pn_message_set_durable (pn_data_put_string pn_message (sprintf_sequence n)) true.

(** [a; a + 1; ..; a + n - 1] *)
Definition Zseq (a : Z) (n : nat) : list Z :=
  map (fun i => a + Z.of_nat i) (seq 0 n).

(** In a log of calls: the tags of the deliveries created, the messages
    sent, and whether the connection was asked to close. *)
Definition deliveries (cs : list call) : list (list Z) :=
  flat_map (fun c => match c with pn_delivery tag => [tag] | _ => [] end) cs.

Definition messages (cs : list call) : list pn_message_t :=
  flat_map (fun c => match c with pn_link_send b => [bytes_of b] | _ => [] end) cs.

Definition is_close (c : call) : bool :=
  match c with pn_connection_close => true | _ => false end.

Definition close_requested (cs : list call) : bool := existsb is_close cs.

(** The capacity of the encode buffer: nothing before the first
    allocation. *)
Definition capacity (b : pn_rwbytes_t) : Z := if start b then size b else 0.

(** An allocated buffer has a size a [size_t] holds, and not 0. *)
Definition buffer_ok (b : pn_rwbytes_t) : Prop :=
  start b = true -> 1 <= size b < 2 ^ 64.

(** The state [main] starts [run] in, for the data [parse_args] leaves in
    [a]. *)
Definition init_state (a : app_data_t) : state :=
  {| app := a; exit_code := 0; calls := [] |}.

(** What [main] and [parse_args] guarantee of that data: the counters
    and the buffer zeroed, and a count that is not negative. *)
Definition initial (a : app_data_t) : Prop :=
  sent a = 0 /\ acknowledged a = 0 /\ start (message_buffer a) = false /\
  0 <= message_count a <= INT_MAX.

Definition accepted (e : pn_event_t) : bool :=
  match pn_event_type e with
  | PN_DELIVERY => pn_delivery_remote_state (pn_event_delivery e) =? PN_ACCEPTED
  | _ => false
  end.

(** The tags of the accepted outcomes in a sequence of events. *)
Definition accepted_tags (evs : list pn_event_t) : list (list Z) :=
  map (fun e => pn_delivery_tag (pn_event_delivery e)) (filter accepted evs).


(** The units of credit the link-flow events of a sequence offer. *)
Definition credit_offered (evs : list pn_event_t) : Z :=
  fold_right (fun e acc =>
                match pn_event_type e with
                | PN_LINK_FLOW => Z.max 0 (pn_link_credit e) + acc
                | _ => acc
                end) 0 evs.

Section Contracts.

Context {lib : Library}.

(** The contract of [pn_message_encode]: a message has an encoded size;
    a buffer smaller than it is answered with [PN_OVERFLOW], any other
    one with 0 and that size.  The size is one a buffer can reach. *)
Definition codec_ok (wire_size : pn_message_t -> Z) : Prop :=
  forall m,
    0 <= wire_size m <= 2 ^ 63 /\
    forall cap,
      (cap < wire_size m -> fst (pn_message_encode m cap) = PN_OVERFLOW) /\
      (wire_size m <= cap -> pn_message_encode m cap = (0, wire_size m)).

(** The contract of [pn_data_format], alike; on [PN_OVERFLOW] the size
    is left as it was. *)
Definition format_ok (text_size : pn_data_t -> Z) : Prop :=
  forall d,
    0 <= text_size d <= 2 ^ 63 /\
    forall len,
      (len < text_size d ->
       fst (fst (pn_data_format d len)) = PN_OVERFLOW /\
       snd (fst (pn_data_format d len)) = len) /\
      (text_size d <= len -> fst (fst (pn_data_format d len)) <> PN_OVERFLOW).

(** The calls of one turn of the send loop, for sequence number [n]. *)
Definition send_calls (wire_size : pn_message_t -> Z) (n : Z) : list call :=
  [pn_delivery (pn_dtag n);
   pn_link_send {| bytes_size := wire_size (message_for n);
                   bytes_of := message_for n |};
   pn_link_advance].

(** A line printed, as against a call on the connection. *)
Definition is_print (c : call) : bool :=
  match c with printf _ | fprintf_stderr _ => true | _ => false end.

(** A state whose fields hold values of their C types. *)
Definition typed (s : state) : Prop :=
  buffer_ok (message_buffer (app s)) /\
  int_range (sent (app s)) /\ int_range (message_count (app s)).

(** How many turns the send loop takes on an event. *)
Definition sends (s : state) (e : pn_event_t) : nat :=
  match pn_event_type e with
  | PN_LINK_FLOW =>
      Z.to_nat (Z.min (pn_link_credit e) (message_count (app s) - sent (app s)))
  | _ => 0%nat
  end.

(** Whether [amqp_destination_address] fails on a connection-remote-open
    event, with the prefix the properties of the event leave. *)
Definition resolution_fails (s : state) (e : pn_event_t) : bool :=
  let '(rc, prefix) :=
    get_data_map_string_property (pn_connection_remote_properties e)
                                 TOPIC_PREFIX_KEY 255 in
  fst (amqp_destination_address PN_MAX_ADDR (amqp_address (app s))
         (if 0 <? rc then prefix else amqp_topic_prefix (app s))) <? 0.

(** The two places where [handle] returns false. *)
Definition stops (s : state) (e : pn_event_t) : bool :=
  match pn_event_type e with
  | PN_PROACTOR_INACTIVE => true
  | PN_CONNECTION_REMOTE_OPEN => resolution_fails s e
  | _ => false
  end.

(** The condition [handle] passes to [check_condition] on an event. *)
Definition condition_of (e : pn_event_t) : option pn_condition_t :=
  match pn_event_type e with
  | PN_DELIVERY =>
      if accepted e then None
      else Some (pn_disposition_condition (pn_event_delivery e))
  | PN_TRANSPORT_CLOSED => Some (pn_transport_condition e)
  | PN_CONNECTION_REMOTE_CLOSE => Some (pn_connection_remote_condition e)
  | PN_SESSION_REMOTE_CLOSE => Some (pn_session_remote_condition e)
  | PN_LINK_REMOTE_CLOSE | PN_LINK_REMOTE_DETACH =>
      Some (pn_link_remote_condition e)
  | _ => None
  end.

(** Whether an event sets the exit code to 1. *)
Definition marks_failure (s : state) (e : pn_event_t) : bool :=
  match pn_event_type e with
  | PN_CONNECTION_REMOTE_OPEN => resolution_fails s e
  | PN_DELIVERY => negb (accepted e)
  | _ => match condition_of e with
         | Some c => pn_condition_is_set c
         | None => false
         end
  end.

(** Whether an event makes [handle] call [pn_connection_close]. *)
Definition closes (s : state) (e : pn_event_t) : bool :=
  match pn_event_type e with
  | PN_DELIVERY =>
      if accepted e
      then int_incr (acknowledged (app s)) =? message_count (app s)
      else true
  | PN_TRANSPORT_CLOSED => pn_condition_is_set (pn_transport_condition e)
  | PN_CONNECTION_REMOTE_CLOSE | PN_SESSION_REMOTE_CLOSE
  | PN_LINK_REMOTE_CLOSE | PN_LINK_REMOTE_DETACH => true
  | _ => false
  end.



(** [handle] on each event of a sequence in turn, whatever it returns. *)
Fixpoint handle_all (fuel : nat) (evs : list pn_event_t) : M unit :=
  match evs with
  | [] => ret tt
  | e :: evs' => handle fuel e ;; handle_all fuel evs'
  end.

(** What a call of [encode_message] leaves as it was. *)
Definition buffer_only (s s' : state) : Prop :=
  exit_code s' = exit_code s /\ calls s' = calls s /\
  sent (app s') = sent (app s) /\
  acknowledged (app s') = acknowledged (app s) /\
  message_count (app s') = message_count (app s) /\
  amqp_topic_prefix (app s') = amqp_topic_prefix (app s) /\
  amqp_address (app s') = amqp_address (app s).

(** What an event does to the counters, the messages sent, the buffer,
    the exit code and the connection. *)
Definition step_ok (s : state) (e : pn_event_t) (b : bool) (s' : state) : Prop :=
  b = negb (stops s e) /\
  typed s' /\
  message_count (app s') = message_count (app s) /\
  amqp_address (app s') = amqp_address (app s) /\
  sent (app s') = sent (app s) + Z.of_nat (sends s e) /\
  acknowledged (app s')
  = (if accepted e then int_incr (acknowledged (app s)) else acknowledged (app s)) /\
  capacity (message_buffer (app s)) <= capacity (message_buffer (app s')) /\
  exit_code s' = (if marks_failure s e then 1 else exit_code s) /\
  exists new,
    calls s' = calls s ++ new /\
    deliveries new = map pn_dtag (Zseq (sent (app s) + 1) (sends s e)) /\
    messages new = map message_for (Zseq (sent (app s) + 1) (sends s e)) /\
    close_requested new = closes s e.

(** The book-keeping of a run after the events [past]: the deliveries
    created and the messages sent are those numbered 1 to [sent], and
    [acknowledged] counts the accepted outcomes, which are for different
    deliveries among those created. *)
Definition tracked (past : list pn_event_t) (s : state) : Prop :=
  typed s /\ 0 <= sent (app s) /\
  deliveries (calls s) = map pn_dtag (Zseq 1 (Z.to_nat (sent (app s)))) /\
  messages (calls s) = map message_for (Zseq 1 (Z.to_nat (sent (app s)))) /\
  acknowledged (app s) = Z.of_nat (List.length (accepted_tags past)) /\
  NoDup (accepted_tags past) /\
  incl (accepted_tags past) (deliveries (calls s)).

(** An event on which [handle] says to go on. *)
Definition nonstop (past : list pn_event_t) (s : state) (e : pn_event_t) : Prop :=
  stops s e = false.



(** [P] holds of every event of a sequence, in the state [handle] is
    called in and after the events [past]. *)
Fixpoint along (P : list pn_event_t -> state -> pn_event_t -> Prop)
    (fuel : nat) (past evs : list pn_event_t) (s : state) : Prop :=
  match evs with
  | [] => True
  | e :: evs' =>
      P past s e /\
      match handle fuel e s with
      | Returns _ s' => along P fuel (past ++ [e]) evs' s'
      | _ => True
      end
  end.

End Contracts.

(** ** A library and a session to run the program on

    A library that keeps the contracts above: every message encodes in
    [wire] bytes and every info formats in [text] bytes; a property is
    looked up by its symbol in a map; an address is the prefix followed
    by the topic, when that is shorter than the size given. *)
Definition example_lookup (props : pn_data_t) (key : string) (len : Z)
  : Z * string :=
  match props with
  | PN_MAP entries =>
      match find (fun kv => match fst kv with
                            | PN_SYMBOL k => String.eqb k key
                            | _ => false
                            end) entries with
      | Some (_, PN_STRING v) =>
          if Z.of_nat (String.length v) <? len
          then (Z.of_nat (String.length v), v)
          else (0, EmptyString)
      | Some _ => (0, EmptyString)
      | None => (-1, EmptyString)
      end
  | _ => (-1, EmptyString)
  end.

Definition example_address (dest_size : Z) (address prefix : string)
  : Z * string :=
  let dest := (prefix ++ address)%string in
  if Z.of_nat (String.length dest) <? dest_size
  then (Z.of_nat (String.length dest), dest)
  else (-1, EmptyString).

Definition example_library (wire text : Z) : Library := {|
  get_data_map_string_property := example_lookup;
  amqp_destination_address := example_address;
  pn_message_encode := fun _ cap =>
    if cap <? wire then (PN_OVERFLOW, cap) else (0, wire);
  pn_data_format := fun _ len =>
    if len <? text then (PN_OVERFLOW, len, EmptyString) else (0, text, "info"%string);
  pn_error_text := fun _ => EmptyString
|}.

(** The data [parse_args] leaves for [-c count -t topic]. *)
Definition example_app (count : Z) (topic : string) : app_data_t :=
  {| host := "localhost"; port := "amqp";
     username := None; password := None;
     amqp_address := topic; amqp_topic_prefix := "topic://";
     container_id := "producer:1";
     message_count := count;
     message_buffer := {| size := 0; start := false |};
     sent := 0; acknowledged := 0 |}.

Definition no_condition : pn_condition_t :=
  {| pn_condition_is_set := false;
     pn_condition_get_name := EmptyString;
     pn_condition_get_description := EmptyString;
     pn_condition_info := None |}.

Definition a_condition : pn_condition_t :=
  {| pn_condition_is_set := true;
     pn_condition_get_name := "amqp:not-allowed";
     pn_condition_get_description := "rejected";
     pn_condition_info := Some (PN_STRING "detail") |}.

Definition a_delivery (n : Z) (remote_state : Z) (c : pn_condition_t)
  : pn_delivery_t :=
  {| pn_delivery_tag := pn_dtag n;
     pn_delivery_remote_state := remote_state;
     pn_disposition_condition := c |}.

(** An event of a kind, with nothing attached. *)
Definition event (t : pn_event_type_t) : pn_event_t :=
  {| pn_event_type := t;
     pn_connection_remote_properties := PN_NULL;
     pn_link_credit := 0;
     pn_event_delivery := a_delivery 0 0 no_condition;
     pn_transport_condition := no_condition;
     pn_connection_remote_condition := no_condition;
     pn_session_remote_condition := no_condition;
     pn_link_remote_condition := no_condition |}.

Definition flow_event (credit : Z) : pn_event_t :=
  {| pn_event_type := PN_LINK_FLOW;
     pn_connection_remote_properties := PN_NULL;
     pn_link_credit := credit;
     pn_event_delivery := a_delivery 0 0 no_condition;
     pn_transport_condition := no_condition;
     pn_connection_remote_condition := no_condition;
     pn_session_remote_condition := no_condition;
     pn_link_remote_condition := no_condition |}.

Definition delivery_event (n : Z) (remote_state : Z) (c : pn_condition_t)
  : pn_event_t :=
  {| pn_event_type := PN_DELIVERY;
     pn_connection_remote_properties := PN_NULL;
     pn_link_credit := 0;
     pn_event_delivery := a_delivery n remote_state c;
     pn_transport_condition := no_condition;
     pn_connection_remote_condition := no_condition;
     pn_session_remote_condition := no_condition;
     pn_link_remote_condition := no_condition |}.

Definition open_event (props : pn_data_t) : pn_event_t :=
  {| pn_event_type := PN_CONNECTION_REMOTE_OPEN;
     pn_connection_remote_properties := props;
     pn_link_credit := 0;
     pn_event_delivery := a_delivery 0 0 no_condition;
     pn_transport_condition := no_condition;
     pn_connection_remote_condition := no_condition;
     pn_session_remote_condition := no_condition;
     pn_link_remote_condition := no_condition |}.

Definition link_close_event (c : pn_condition_t) : pn_event_t :=
  {| pn_event_type := PN_LINK_REMOTE_CLOSE;
     pn_connection_remote_properties := PN_NULL;
     pn_link_credit := 0;
     pn_event_delivery := a_delivery 0 0 no_condition;
     pn_transport_condition := no_condition;
     pn_connection_remote_condition := no_condition;
     pn_session_remote_condition := no_condition;
     pn_link_remote_condition := c |}.

(** PN_REJECTED, from proton/disposition.h *)
Definition PN_REJECTED : Z := 37.

(** A topic of 1100 characters, more than [PN_MAX_ADDR]. *)
Definition long_topic : string :=
  String.concat EmptyString (repeat "topic/"%string 184).

(** A whole run for two messages, in three batches. *)
Definition two_message_run : list (list pn_event_t) :=
  [[event PN_CONNECTION_INIT];
   [open_event (PN_MAP [(PN_SYMBOL "topic-prefix", PN_STRING "acme/")]);
    flow_event 1; delivery_event 1 PN_ACCEPTED no_condition];
   [flow_event 5; delivery_event 2 PN_ACCEPTED no_condition;
    event PN_CONNECTION_REMOTE_CLOSE; event PN_TRANSPORT_CLOSED]].


(** [sizeof("sequence_") + 12]: the size of the buffer [encode_message]
    allocates for [sprintf]. *)
Definition slen : Z := Z.of_nat (String.length "sequence_" + 1) + 12.

(** ** The command line: [usage], [parse_args], [main]

    What [parse_args] calls that is not in [producer.c]: [container_id]
    of util.h, and [atoi]. *)
Class CommandLine : Type := {
  (** util.h: [container_id(dest, dest_size, source, source_size)]; the
      value returned and the text written to [dest]. *)
  util_container_id : Z -> string -> Z -> Z * string;
  atoi : string -> Z
}.

(** [sizeof(argv[0])] and [sizeof(optarg)]: the size of a pointer. *)
Definition sizeof_char_ptr : Z := 8.

(** What one call of [getopt] gives: the option character returned
    ([?] for an option that is not known or lacks its argument) and
    [optarg]. *)
Record getopt_t : Type := {
  opt : ascii;
  optarg : string
}.

Definition tab : string := String (ascii_of_nat 9) EmptyString.

Definition set_host (a : app_data_t) (h : string) : app_data_t :=
  {| host := h; port := port a; username := username a;
     password := password a; amqp_address := amqp_address a;
     amqp_topic_prefix := amqp_topic_prefix a; container_id := container_id a;
     message_count := message_count a; message_buffer := message_buffer a;
     sent := sent a; acknowledged := acknowledged a |}.

Definition set_port (a : app_data_t) (p : string) : app_data_t :=
  {| host := host a; port := p; username := username a;
     password := password a; amqp_address := amqp_address a;
     amqp_topic_prefix := amqp_topic_prefix a; container_id := container_id a;
     message_count := message_count a; message_buffer := message_buffer a;
     sent := sent a; acknowledged := acknowledged a |}.

Definition set_username (a : app_data_t) (u : option string) : app_data_t :=
  {| host := host a; port := port a; username := u;
     password := password a; amqp_address := amqp_address a;
     amqp_topic_prefix := amqp_topic_prefix a; container_id := container_id a;
     message_count := message_count a; message_buffer := message_buffer a;
     sent := sent a; acknowledged := acknowledged a |}.

Definition set_password (a : app_data_t) (p : option string) : app_data_t :=
  {| host := host a; port := port a; username := username a;
     password := p; amqp_address := amqp_address a;
     amqp_topic_prefix := amqp_topic_prefix a; container_id := container_id a;
     message_count := message_count a; message_buffer := message_buffer a;
     sent := sent a; acknowledged := acknowledged a |}.

Definition set_amqp_address (a : app_data_t) (t : string) : app_data_t :=
  {| host := host a; port := port a; username := username a;
     password := password a; amqp_address := t;
     amqp_topic_prefix := amqp_topic_prefix a; container_id := container_id a;
     message_count := message_count a; message_buffer := message_buffer a;
     sent := sent a; acknowledged := acknowledged a |}.

Definition set_container_id (a : app_data_t) (i : string) : app_data_t :=
  {| host := host a; port := port a; username := username a;
     password := password a; amqp_address := amqp_address a;
     amqp_topic_prefix := amqp_topic_prefix a; container_id := i;
     message_count := message_count a; message_buffer := message_buffer a;
     sent := sent a; acknowledged := acknowledged a |}.

Definition set_message_count (a : app_data_t) (n : Z) : app_data_t :=
  {| host := host a; port := port a; username := username a;
     password := password a; amqp_address := amqp_address a;
     amqp_topic_prefix := amqp_topic_prefix a; container_id := container_id a;
     message_count := n; message_buffer := message_buffer a;
     sent := sent a; acknowledged := acknowledged a |}.

Definition DEFAULT_AMQP_TOPIC_PREFIX : string := "topic://".

Definition AMQP_TOPIC_PREFIX : string := DEFAULT_AMQP_TOPIC_PREFIX.

(** The lines [usage] prints. *)
Definition usage_lines : list string :=
  [("Usage: producer [options] " ++ nl)%string;
   (tab ++ "-a      The host address [localhost]" ++ nl)%string;
   (tab ++ "-p      The host port [5672]" ++ nl)%string;
   (tab ++ "-c      # of messages to send [10]" ++ nl)%string;
   (tab ++ "-t      Target address topic [my_topic]" ++ nl)%string;
   (tab ++ "-i      AMQP Container id [producer:<pid>]" ++ nl)%string;
   (tab ++ "-u      Client authentication username []" ++ nl)%string;
   (tab ++ "-P      Client authentication password []" ++ nl)%string;
   (tab ++ "-h      Displays this message" ++ nl)%string].

(** [usage] prints its lines and calls [exit(0)]: it does not return. *)
Definition usage {A : Type} : M A :=
  fold_right (fun line k => do_call (printf line) ;; k) (exit 0) usage_lines.

Section CommandLineArguments.

Context {cli : CommandLine}.

(** The [while ((c = getopt(..)) != -1)] loop of [parse_args], over
    what [getopt] gives in turn.  [c] is a [char]: the loop ends at the
    -1 of [getopt] where [char] is signed, as it is taken to be here. *)
Fixpoint parse_options (opts : list getopt_t) : M unit :=
  match opts with
  | [] => ret tt
  | o :: opts' =>
      (if (opt o =? "h")%char then usage
       else if (opt o =? "c")%char then
         a <- get_app ;;
         put_app (set_message_count a (atoi (optarg o))) ;;
         a <- get_app ;;
         if message_count a <? 0 then usage else ret tt
       else if (opt o =? "a")%char then
         a <- get_app ;; put_app (set_host a (optarg o))
       else if (opt o =? "i")%char then
         let '(rc, con_id) :=
           util_container_id PN_MAX_ADDR (optarg o) sizeof_char_ptr in
         if rc <? 0 then
           do_call (fprintf_stderr
                      ("Unable to format container id from source: "
                       ++ optarg o)%string) ;;
           exit 1
         else
           a <- get_app ;; put_app (set_container_id a con_id)
       else if (opt o =? "t")%char then
         a <- get_app ;; put_app (set_amqp_address a (optarg o))
       else if (opt o =? "p")%char then
         a <- get_app ;; put_app (set_port a (optarg o))
       else if (opt o =? "P")%char then
         a <- get_app ;; put_app (set_password a (Some (optarg o)))
       else if (opt o =? "u")%char then
         a <- get_app ;; put_app (set_username a (Some (optarg o)))
       else usage) ;;
      parse_options opts'
  end.

(** [parse_args]: the defaults, then the options.  The fields it does
    not assign are left as [main] zeroed them. *)
Definition parse_args (argv0 : string) (opts : list getopt_t) : M unit :=
  let '(rc, con_id) := util_container_id PN_MAX_ADDR argv0 sizeof_char_ptr in
  if rc <? 0 then
    do_call (fprintf_stderr
               ("Unable to format container id from source: " ++ argv0)%string) ;;
    exit 1
  else
    a <- get_app ;;
    put_app {| host := "localhost"; port := "amqp";
               username := None; password := None;
               amqp_address := "my_topic";
               amqp_topic_prefix := AMQP_TOPIC_PREFIX;
               container_id := con_id;
               message_count := 10;
               message_buffer := message_buffer a;
               sent := sent a; acknowledged := acknowledged a |} ;;
    parse_options opts.

(** [struct app_data_t app = {0}]: every pointer NULL, every number 0
    (a NULL string is the empty one here; [parse_args] assigns each
    before it is read). *)
Definition zero_app : app_data_t :=
  {| host := EmptyString; port := EmptyString;
     username := None; password := None;
     amqp_address := EmptyString; amqp_topic_prefix := EmptyString;
     container_id := EmptyString;
     message_count := 0;
     message_buffer := {| size := 0; start := false |};
     sent := 0; acknowledged := 0 |}.

(** The state [main] starts in: [exit_code] is 0 and nothing was
    called. *)
Definition start_state : state := init_state zero_app.

(** [main]: the arguments, then the loop on the events of the
    proactor, then [return exit_code].  The value is [None] while [run]
    has not returned.  The set-up of the proactor, of the transport and
    of SASL before [run], and the frees after it, make no call of the
    log and leave [app] and [exit_code] as they are. *)
Definition main {lib : Library} (fuel : nat) (argv0 : string)
    (opts : list getopt_t) (batches : list (list pn_event_t)) : M (option Z) :=
  parse_args argv0 opts ;;
  continue <- run fuel batches ;;
  if continue then ret None
  else fun s => Returns (Some (exit_code s)) s.

(** An option that sends [parse_args] to [usage]: [-h], an option
    [getopt] does not know, or a count below 0. *)
Definition asks_usage (o : getopt_t) : bool :=
  if (opt o =? "h")%char then true
  else if (opt o =? "c")%char then atoi (optarg o) <? 0
  else negb (existsb (Ascii.eqb (opt o))
               ["a"; "i"; "t"; "p"; "P"; "u"]%char).

(** A [-i] whose argument [container_id] cannot format. *)
Definition bad_container_id (o : getopt_t) : bool :=
  (opt o =? "i")%char
  && (fst (util_container_id PN_MAX_ADDR (optarg o) sizeof_char_ptr) <? 0).

(** How one option, and so [parse_options] and [parse_args], can end:
    by returning with nothing printed, or by an exit with status 0 or 1
    after lines printed. *)
Definition ends_well (s : state) (o : outcome unit) : Prop :=
  match o with
  | Returns _ s' => calls s' = calls s
  | Exits status s' =>
      (status = 0 \/ status = 1) /\
      exists new, calls s' = calls s ++ new /\ forallb is_print new = true
  | OutOfFuel => False
  end.

End CommandLineArguments.

(** [isspace] and [isdigit] in the C locale. *)
Definition isspace (c : ascii) : bool :=
  let n := nat_of_ascii c in
  (n =? 32)%nat || ((9 <=? n)%nat && (n <=? 13)%nat).

Definition isdigit (c : ascii) : bool :=
  let n := nat_of_ascii c in (48 <=? n)%nat && (n <=? 57)%nat.

Fixpoint skip_spaces (s : string) : string :=
  match s with
  | String c s' => if isspace c then skip_spaces s' else s
  | EmptyString => s
  end.

(** The value of the digits a string starts with, after [acc]. *)
Fixpoint digits_value (s : string) (acc : Z) : Z :=
  match s with
  | String c s' =>
      if isdigit c
      then digits_value s' (10 * acc + (Z.of_nat (nat_of_ascii c) - 48))
      else acc
  | EmptyString => acc
  end.

(** [strtol] in base 10: white space, an optional sign, the digits up
    to the first other character; the value is kept within [long]. *)
Definition strtol (s : string) : Z :=
  let value :=
    match skip_spaces s with
    | String "-" s' => - digits_value s' 0
    | String "+" s' => digits_value s' 0
    | s' => digits_value s' 0
    end in
  Z.max (- 2 ^ 63) (Z.min (2 ^ 63 - 1) value).

(** A command line to run [main] on: [container_id] puts [producer:]
    before the source when the result fits; [atoi] is [strtol]
    converted to [int]. *)
Definition example_cli : CommandLine := {|
  util_container_id := fun dest_size source _ =>
    let id := ("producer:" ++ source)%string in
    if Z.of_nat (String.length id) <? dest_size
    then (Z.of_nat (String.length id), id)
    else (-1, EmptyString);
  atoi := fun s => int_wrap (strtol s)
|}.

Definition option_of (c : ascii) (arg : string) : getopt_t :=
  {| opt := c; optarg := arg |}.

(** PN_ARG_ERR, from proton/error.h *)
Definition PN_ARG_ERR : Z := -6.

(** A library whose codec refuses every message. *)
Definition failing_library : Library := {|
  get_data_map_string_property := example_lookup;
  amqp_destination_address := example_address;
  pn_message_encode := fun _ _ => (PN_ARG_ERR, 0);
  pn_data_format := fun _ _ => (0, 4, "info"%string);
  pn_error_text := fun _ => "invalid argument"%string
|}.

(** The session once the encode buffer is allocated. *)
Definition allocated (a : app_data_t) (cap : Z) : state :=
  init_state (set_message_buffer a {| size := cap; start := true |}).

(** * Properties *)

(** ** Integers, tags and bodies *)

Lemma int_wrap_id x : int_range x -> int_wrap x = x.
Proof.
  unfold int_range, int_wrap, INT_MAX. intros H.
  rewrite Z.mod_small; lia.
Qed.

Lemma int_incr_eq x : - 2 ^ 31 <= x < INT_MAX -> int_incr x = x + 1.
Proof.
  intros H. unfold int_incr. apply int_wrap_id. unfold int_range, INT_MAX in *. lia.
Qed.

Lemma int_wrap_mod x : int_wrap (x mod 2 ^ 32) = int_wrap x.
Proof.
  unfold int_wrap. f_equal.
  rewrite Z.add_mod_idemp_l by lia. reflexivity.
Qed.

Lemma dtag_int_pn_dtag x : int_range x -> dtag_int (pn_dtag x) = x.
Proof.
  intros H. unfold dtag_int, pn_dtag. cbn [fold_right].
  set (u := x mod 2 ^ 32).
  assert (Hu : 0 <= u < 2 ^ 32) by (apply Z.mod_pos_bound; lia).
  replace (u mod 256 + 256 * ((u / 256) mod 256 + 256 * ((u / 65536) mod 256 + 256 * ((u / 16777216) mod 256 + 256 * 0)))) with u.
  - unfold u. rewrite int_wrap_mod. now apply int_wrap_id.
  - change (2^32) with 4294967296 in Hu. Z.div_mod_to_equations. lia.
Qed.

Lemma substring_all s : substring 0 (String.length s) s = s.
Proof. induction s; simpl; congruence. Qed.

Lemma to_int_ok n : Z.to_int n <> Pos Nil /\ Z.to_int n <> Neg Nil.
Proof.
  destruct n; simpl; split; try discriminate; intros [= H];
    now apply (Unsigned.to_uint_nonnil p).
Qed.

Lemma sequence_number_sprintf n : sequence_number (sprintf_sequence n) = Some n.
Proof.
  unfold sequence_number, sprintf_sequence. cbn [String.append String.prefix].
  simpl. rewrite Nat.sub_0_r, substring_all.
  replace (prefix "" (decimal n)) with true by (now destruct (decimal n)).
  unfold decimal. destruct (to_int_ok n) as [H1 H2].
  rewrite NilZero.isi by assumption. simpl. now rewrite DecimalZ.of_to.
Qed.

Lemma pn_dtag_inj x y : int_range x -> int_range y -> pn_dtag x = pn_dtag y -> x = y.
Proof.
  intros Hx Hy H.
  rewrite <- (dtag_int_pn_dtag x Hx), <- (dtag_int_pn_dtag y Hy). now rewrite H.
Qed.

(** ** Ranges of sequence numbers *)

Lemma Zseq_length a n : List.length (Zseq a n) = n.
Proof. unfold Zseq. now rewrite length_map, length_seq. Qed.

Lemma Zseq_In a n x : In x (Zseq a n) <-> a <= x < a + Z.of_nat n.
Proof.
  unfold Zseq. rewrite in_map_iff. split.
  - intros (i & <- & Hi). apply in_seq in Hi. lia.
  - intros H. exists (Z.to_nat (x - a)). split; [lia | apply in_seq; lia].
Qed.

Lemma Zseq_shift a n m k :
  map (fun i => a + Z.of_nat i) (seq (n + k) m) =
  map (fun i => a + Z.of_nat n + Z.of_nat i) (seq k m).
Proof.
  revert k. induction m as [ | m IH]; intros k; simpl.
  - reflexivity.
  - f_equal; [lia | ]. rewrite <- IH. now rewrite Nat.add_succ_r.
Qed.

Lemma Zseq_app a n m : Zseq a (n + m) = Zseq a n ++ Zseq (a + Z.of_nat n) m.
Proof.
  unfold Zseq. rewrite seq_app, map_app. f_equal.
  rewrite <- Zseq_shift. now rewrite Nat.add_0_r.
Qed.

Lemma Zseq_cons a n : Zseq a (S n) = a :: Zseq (a + 1) n.
Proof.
  change (S n) with (1 + n)%nat. rewrite Zseq_app. simpl.
  unfold Zseq at 1. simpl. f_equal. lia.
Qed.

Lemma Zseq_NoDup a n : NoDup (Zseq a n).
Proof.
  revert a. induction n; intros a.
  - constructor.
  - rewrite Zseq_cons. constructor; [ | apply IHn].
    rewrite Zseq_In. lia.
Qed.

Lemma deliveries_app cs cs' : deliveries (cs ++ cs') = deliveries cs ++ deliveries cs'.
Proof. apply flat_map_app. Qed.

Lemma messages_app cs cs' : messages (cs ++ cs') = messages cs ++ messages cs'.
Proof. apply flat_map_app. Qed.

Lemma close_requested_app cs cs' :
  close_requested (cs ++ cs') = close_requested cs || close_requested cs'.
Proof. apply existsb_app. Qed.

Lemma prints_deliveries cs : forallb is_print cs = true -> deliveries cs = [].
Proof.
  induction cs as [ | c cs IH]; simpl; [reflexivity | ].
  intros H. apply andb_true_iff in H. destruct H as [Hc H].
  destruct c; try discriminate; simpl; auto.
Qed.

Lemma prints_messages cs : forallb is_print cs = true -> messages cs = [].
Proof.
  induction cs as [ | c cs IH]; simpl; [reflexivity | ].
  intros H. apply andb_true_iff in H. destruct H as [Hc H].
  destruct c; try discriminate; simpl; auto.
Qed.

Lemma prints_close cs : forallb is_print cs = true -> close_requested cs = false.
Proof.
  induction cs as [ | c cs IH]; simpl; [reflexivity | ].
  intros H. apply andb_true_iff in H. destruct H as [Hc H].
  destruct c; try discriminate; simpl; auto.
Qed.

(** ** The program, over a library that keeps its contracts *)

Section Verification.

Context {lib : Library}.

Variable wire_size : pn_message_t -> Z.
Variable text_size : pn_data_t -> Z.
Hypothesis codec : codec_ok wire_size.
Hypothesis format : format_ok text_size.

(** Both retry loops double a [size_t] that starts at 1 or more: 64
    turns are more than they can take. *)
Variable fuel : nat.
Hypothesis enough_fuel : (64 <= fuel)%nat.

Lemma buffer_only_refl s : buffer_only s s.
Proof. repeat split. Qed.

Lemma buffer_only_trans s1 s2 s3 :
  buffer_only s1 s2 -> buffer_only s2 s3 -> buffer_only s1 s3.
Proof.
  unfold buffer_only. intros H1 H2.
  repeat match goal with H : _ /\ _ |- _ => destruct H end.
  repeat split; congruence.
Qed.

Lemma size_double_small c : 0 <= c < 2 ^ 63 -> size_double c = c * 2.
Proof.
  intros H. unfold size_double, size_wrap. apply Z.mod_small.
  change (2 ^ 64) with (2 ^ 63 * 2). lia.
Qed.

(** The encode loop: from a capacity [c], it stops after some number [k]
    of doublings, at capacity [c * 2^k], with the message encoded. *)
Lemma encode_loop_ok (d : nat) : forall (n : nat) (m : pn_message_t) (s : state),
  (d < n)%nat ->
  1 <= size (message_buffer (app s)) < 2 ^ 64 ->
  wire_size m <= size (message_buffer (app s)) * 2 ^ Z.of_nat d ->
  exists s' k,
    encode_loop n m s = Returns (0, wire_size m) s' /\
    buffer_only s s' /\
    0 <= k /\
    size (message_buffer (app s')) = size (message_buffer (app s)) * 2 ^ k /\
    (k = 0 -> s' = s) /\
    start (message_buffer (app s')) = (if k =? 0 then start (message_buffer (app s)) else true) /\
    size (message_buffer (app s')) < 2 ^ 64 /\
    wire_size m <= size (message_buffer (app s')).
Proof.
  induction d as [ | d IH]; intros n m s Hn Hsize Hfit.
  - destruct n as [ | n]; [lia | ]. simpl encode_loop.
    unfold bind, get_app.
    destruct (codec m) as [_ Hc]. destruct (Hc (size (message_buffer (app s)))) as [_ Hok].
    rewrite Hok by (simpl in Hfit; lia). simpl.
    exists s, 0. repeat split; auto; lia.
  - destruct n as [ | n]; [lia | ]. simpl encode_loop.
    unfold bind, get_app.
    destruct (codec m) as [Hw Hc]. destruct (Hc (size (message_buffer (app s)))) as [Hov Hok].
    destruct (Z_lt_le_dec (size (message_buffer (app s))) (wire_size m)) as [Hlt | Hle].
    + specialize (Hov Hlt).
      destruct (pn_message_encode m (size (message_buffer (app s)))) as [status sz].
      simpl in Hov. subst status. simpl.
      assert (Hd : size_double (size (message_buffer (app s)))
                   = size (message_buffer (app s)) * 2)
        by (apply size_double_small; lia).
      edestruct (IH n m
                   {| app := set_message_buffer (app s)
                               {| size := size_double (size (message_buffer (app s)));
                                  start := true |};
                      exit_code := exit_code s; calls := calls s |})
        as (s' & k & Hrun & Hframe & Hk & Hsz & Hk0 & Hst & Hlt' & Hfit');
        [lia | simpl; rewrite Hd; lia | | ].
      * simpl. rewrite Hd. rewrite Nat2Z.inj_succ, Z.pow_succ_r in Hfit by lia. lia.
      * exists s', (k + 1). simpl in Hrun, Hsz, Hframe, Hst. rewrite Hrun.
        split; [reflexivity | ].
        split; [eapply buffer_only_trans; [ | exact Hframe]; repeat split | ].
        split; [lia | ].
        split; [rewrite Hsz, Hd, Z.pow_add_r by lia; lia | ].
        split; [lia | ].
        split; [ | split; assumption].
        replace (k + 1 =? 0) with false by (symmetry; apply Z.eqb_neq; lia).
        rewrite Hst. now destruct (k =? 0).
    + rewrite (Hok Hle). simpl.
      exists s, 0. repeat split; auto; lia.
Qed.

(** One call of [encode_message]: it returns the encoding of the
    message for the current [sent], whole, after [k] doublings from the
    capacity it found (128 on the first call). *)
Lemma encode_message_ok (s : state) :
  buffer_ok (message_buffer (app s)) ->
  let m := message_for (sent (app s)) in
  exists s' k,
    encode_message fuel s
    = Returns {| bytes_size := wire_size m; bytes_of := m |} s' /\
    buffer_only s s' /\
    0 <= k /\
    start (message_buffer (app s')) = true /\
    size (message_buffer (app s'))
    = (if start (message_buffer (app s))
       then size (message_buffer (app s)) else 128) * 2 ^ k /\
    size (message_buffer (app s')) < 2 ^ 64 /\
    wire_size m <= size (message_buffer (app s')).
Proof.
  intros Hbuf m. unfold encode_message, bind, get_app.
  replace (Z.of_nat (String.length (sprintf_sequence (sent (app s)))) <? 0)
    with false by (symmetry; apply Z.ltb_ge; lia).
  fold (message_for (sent (app s))). fold m.
  destruct (codec m) as [Hw _].
  destruct (start (message_buffer (app s))) eqn:Hstart; cbn [negb]; cbv beta iota.
  - unfold ret at 1. cbv beta iota.
    destruct (encode_loop_ok 63 fuel m s) as (s' & k & Hrun & Hframe & Hk & Hsz & _ & Hst & Hlt & Hfit);
      [lia | apply Hbuf, Hstart | pose proof (Hbuf Hstart); change (Z.of_nat 63) with 63; lia | ].
    rewrite Hrun. simpl.
    exists s', k. rewrite Hstart in Hst. destruct (k =? 0); repeat split; auto; apply Hframe.
  - unfold put_app at 1. cbv beta iota.
    match goal with |- context [encode_loop fuel m ?s0] =>
      destruct (encode_loop_ok 63 fuel m s0)
        as (s' & k & Hrun & Hframe & Hk & Hsz & _ & Hst & Hlt & Hfit);
        [lia | simpl; lia | simpl; change (Z.of_nat 63) with 63; lia | ]
    end.
    rewrite Hrun. simpl in *.
    exists s', k. destruct (k =? 0); repeat split; auto; apply Hframe.
Qed.

(** The format loop of [check_condition], from a size of 1 or more. *)
Lemma format_loop_ok (d : nat) : forall (n : nat) (info : pn_data_t) (len : Z) (s : state),
  (d < n)%nat -> 1 <= len < 2 ^ 64 -> text_size info <= len * 2 ^ Z.of_nat d ->
  exists buf, format_loop n info len s = Returns buf s.
Proof.
  induction d as [ | d IH]; intros n info len s Hn Hlen Hfit;
    (destruct n as [ | n]; [lia | ]); simpl format_loop;
    destruct (format info) as [Hw Hc]; destruct (Hc len) as [Hov Hok].
  - assert (Hle : text_size info <= len) by (simpl in Hfit; lia).
    specialize (Hok Hle).
    destruct (pn_data_format info len) as [[rc len'] buf]. simpl in Hok.
    apply Z.eqb_neq in Hok. rewrite Hok. now exists buf.
  - destruct (Z_lt_le_dec len (text_size info)) as [Hlt | Hle].
    + destruct (Hov Hlt) as [Hrc Hlen'].
      destruct (pn_data_format info len) as [[rc len'] buf]. simpl in Hrc, Hlen'.
      subst rc len'. simpl.
      assert (Hd : size_double len = len * 2) by (apply size_double_small; lia).
      apply IH; [lia | rewrite Hd; lia | ].
      rewrite Hd. rewrite Nat2Z.inj_succ, Z.pow_succ_r in Hfit by lia. lia.
    + specialize (Hok Hle).
      destruct (pn_data_format info len) as [[rc len'] buf]. simpl in Hok.
      apply Z.eqb_neq in Hok. rewrite Hok. now exists buf.
Qed.

(** [check_condition]: nothing when the condition is not set; else the
    line about the condition, perhaps a line of info, the request to
    close, and the exit code 1. *)
Lemma check_condition_spec (e : pn_event_t) (cond : pn_condition_t) (s : state) :
  exists s',
    check_condition fuel e cond s = Returns tt s' /\
    app s' = app s /\
    (pn_condition_is_set cond = false -> s' = s) /\
    (pn_condition_is_set cond = true ->
     exit_code s' = 1 /\
     exists extra,
       forallb is_print extra = true /\
       calls s'
       = calls s
         ++ fprintf_stderr
              (pn_event_type_name (pn_event_type e) ++ ": "
               ++ pn_condition_get_name cond ++ ": "
               ++ pn_condition_get_description cond ++ nl)%string
            :: extra ++ [pn_connection_close]).
Proof.
  unfold check_condition.
  destruct (pn_condition_is_set cond) eqn:Hset.
  - unfold bind at 1. unfold do_call at 1.
    destruct (pn_condition_info cond) as [info | ].
    + destruct (pn_data_is_null info); simpl negb; cbv iota.
      * eexists. split; [reflexivity | ]. simpl.
        split; [reflexivity | ]. split; [discriminate | ]. intros _.
        split; [reflexivity | ]. exists []. split; [reflexivity | ].
        now rewrite <- app_assoc.
      * unfold bind at 1. unfold bind at 1.
        match goal with |- context [format_loop fuel info 128 ?s0] =>
          destruct (format_loop_ok 63 fuel info 128 s0) as (buf & Hrun);
            [lia | lia | destruct (format info) as [Hw _];
                         change (Z.of_nat 63) with 63; lia | ]
        end.
        rewrite Hrun.
        eexists. split; [reflexivity | ]. simpl.
        split; [reflexivity | ]. split; [discriminate | ]. intros _.
        split; [reflexivity | ].
        exists [fprintf_stderr ("Err info: " ++ buf ++ nl)%string].
        split; [reflexivity | ].
        now rewrite <- !app_assoc.
    + eexists. split; [reflexivity | ]. simpl.
      split; [reflexivity | ]. split; [discriminate | ]. intros _.
      split; [reflexivity | ]. exists []. split; [reflexivity | ].
      now rewrite <- app_assoc.
  - exists s. split; [reflexivity | ]. split; [reflexivity | ].
    split; [reflexivity | discriminate].
Qed.

(** The send loop on [credit] units of credit: [k] sends, for the
    sequence numbers after [sent], where [k] is the smaller of the
    credit and of what is left to send. *)
Lemma send_loop_ok (credit : nat) : forall (s : state),
  buffer_ok (message_buffer (app s)) ->
  int_range (sent (app s)) -> int_range (message_count (app s)) ->
  let k := Z.to_nat (Z.min (Z.of_nat credit)
                           (message_count (app s) - sent (app s))) in
  exists s',
    send_loop fuel credit s = Returns tt s' /\
    sent (app s') = sent (app s) + Z.of_nat k /\
    calls s' = calls s ++ flat_map (send_calls wire_size) (Zseq (sent (app s) + 1) k) /\
    exit_code s' = exit_code s /\
    acknowledged (app s') = acknowledged (app s) /\
    message_count (app s') = message_count (app s) /\
    amqp_topic_prefix (app s') = amqp_topic_prefix (app s) /\
    amqp_address (app s') = amqp_address (app s) /\
    buffer_ok (message_buffer (app s')) /\
    capacity (message_buffer (app s)) <= capacity (message_buffer (app s')).
Proof.
  induction credit as [ | credit IH]; intros s Hbuf Hsent Hcount k.
  - exists s. subst k. rewrite Z2Nat.inj_min. simpl Z.to_nat. rewrite Nat.min_0_l.
    simpl. rewrite app_nil_r, Z.add_0_r.
      repeat match goal with |- _ /\ _ => split end; auto; apply Z.le_refl.
  - simpl send_loop. unfold bind at 1. unfold get_app at 1.
    destruct (sent (app s) <? message_count (app s)) eqn:Hlt.
    + apply Z.ltb_lt in Hlt.
      assert (Hincr : int_incr (sent (app s)) = sent (app s) + 1)
        by (apply int_incr_eq; unfold int_range in *; lia).
      unfold bind at 1. unfold put_app at 1.
      unfold bind at 1. unfold get_app at 1.
      unfold bind at 1. unfold do_call at 1.
      unfold bind at 1.
      match goal with |- context [encode_message fuel ?s0] =>
        destruct (encode_message_ok s0)
          as (s1 & j & Hrun & Hframe & Hj & Hst & Hsz & Hmax & Hfit);
          [exact Hbuf | ]
      end.
      rewrite Hrun. clear Hrun.
      destruct Hframe as (Hx & Hc & Hs & Ha & Hm & Hp & Had). simpl in Hx, Hc, Hs, Ha, Hm, Hp, Had, Hsz.
      unfold bind at 1. unfold do_call at 1.
      unfold bind at 1. unfold do_call at 1.
      match goal with |- context [send_loop fuel credit ?s0] =>
        destruct (IH s0) as (s' & Hrun & Hs' & Hc' & Hx' & Ha' & Hm' & Hp' & Had' & Hbuf' & Hcap')
      end.
      * simpl. intros _. split; [ | exact Hmax].
        destruct (start (message_buffer (app s))) eqn:Hstart.
        -- pose proof (Hbuf Hstart). rewrite Hsz. nia.
        -- rewrite Hsz. nia.
      * simpl. rewrite Hs, Hincr. unfold int_range in *. lia.
      * simpl. now rewrite Hm.
      * simpl in Hs', Hc', Hx', Ha', Hm', Hp', Had', Hcap'.
        exists s'. rewrite Hrun.
        assert (Hk : k = S (Z.to_nat (Z.min (Z.of_nat credit)
                                        (message_count (app s1) - sent (app s1)))))
          by (subst k; rewrite Hm, Hs, Hincr; lia).
        rewrite Hk. rewrite Zseq_cons.
        split; [reflexivity | ].
        split; [rewrite Hs', Hs, Hincr; lia | ].
        split.
        { rewrite Hc', Hc. cbn [flat_map send_calls].
          rewrite Hs, Hincr, <- !app_assoc. reflexivity. }
        split; [congruence | ].
        split; [congruence | ].
        split; [congruence | ].
        split; [congruence | ].
        split; [congruence | ].
        split; [exact Hbuf' | ].
        eapply Z.le_trans; [ | exact Hcap'].
        unfold capacity. rewrite Hst, Hsz.
        destruct (start (message_buffer (app s))) eqn:Hstart; [ | nia].
        pose proof (Hbuf Hstart). nia.
    + apply Z.ltb_ge in Hlt. exists s. subst k.
      replace (Z.to_nat _) with 0%nat by lia.
      simpl. rewrite app_nil_r, Z.add_0_r.
      repeat match goal with |- _ /\ _ => split end; auto; apply Z.le_refl.
Qed.

(** *** One event *)

(** [set_topic_prefix_from_connection]: the prefix is replaced when the
    lookup returns more than 0, and nothing happens otherwise. *)
Lemma set_topic_prefix_spec (e : pn_event_t) (s : state) :
  let r := get_data_map_string_property (pn_connection_remote_properties e)
                                        TOPIC_PREFIX_KEY 255 in
  set_topic_prefix_from_connection e s
  = Returns (fst r)
      (if 0 <? fst r
       then {| app := set_amqp_topic_prefix (app s) (snd r);
               exit_code := exit_code s; calls := calls s |}
       else s).
Proof.
  unfold set_topic_prefix_from_connection. simpl.
  destruct (get_data_map_string_property _ _ _) as [rc v]. simpl.
  unfold bind. destruct (0 <? rc); reflexivity.
Qed.

Lemma typed_same (s s' : state) :
  message_buffer (app s') = message_buffer (app s) ->
  sent (app s') = sent (app s) ->
  message_count (app s') = message_count (app s) ->
  typed s -> typed s'.
Proof. unfold typed. intros -> -> ->. auto. Qed.

Lemma step_ok_quiet (s : state) (e : pn_event_t) (b : bool) (s' : state) (new : list call) :
  b = negb (stops s e) ->
  sends s e = 0%nat ->
  typed s ->
  message_buffer (app s') = message_buffer (app s) ->
  sent (app s') = sent (app s) ->
  message_count (app s') = message_count (app s) ->
  amqp_address (app s') = amqp_address (app s) ->
  acknowledged (app s')
  = (if accepted e then int_incr (acknowledged (app s)) else acknowledged (app s)) ->
  calls s' = calls s ++ new ->
  deliveries new = [] -> messages new = [] ->
  close_requested new = closes s e ->
  exit_code s' = (if marks_failure s e then 1 else exit_code s) ->
  step_ok s e b s'.
Proof.
  intros Hb Hk Ht Hbuf Hs Hm Ha Hack Hc Hd Hmsg Hcl Hx. unfold step_ok.
  rewrite Hk, Hbuf. simpl. rewrite Z.add_0_r.
  repeat match goal with |- _ /\ _ => split end; auto.
  - eapply typed_same; eauto.
  - apply Z.le_refl.
  - exists new. auto.
Qed.

Lemma send_calls_deliveries (a : Z) (k : nat) :
  deliveries (flat_map (send_calls wire_size) (Zseq a k)) = map pn_dtag (Zseq a k).
Proof.
  induction (Zseq a k) as [ | n l IH]; simpl; [reflexivity | ]. now rewrite IH.
Qed.

Lemma send_calls_messages (a : Z) (k : nat) :
  messages (flat_map (send_calls wire_size) (Zseq a k)) = map message_for (Zseq a k).
Proof.
  induction (Zseq a k) as [ | n l IH]; simpl; [reflexivity | ]. now rewrite IH.
Qed.

Lemma send_calls_close (a : Z) (k : nat) :
  close_requested (flat_map (send_calls wire_size) (Zseq a k)) = false.
Proof.
  induction (Zseq a k) as [ | n l IH]; simpl; [reflexivity | ]. exact IH.
Qed.

Lemma check_condition_calls (e : pn_event_t) (c : pn_condition_t) (s : state) :
  exists s' new,
    check_condition fuel e c s = Returns tt s' /\
    app s' = app s /\ calls s' = calls s ++ new /\
    deliveries new = [] /\ messages new = [] /\
    close_requested new = pn_condition_is_set c /\
    exit_code s' = (if pn_condition_is_set c then 1 else exit_code s).
Proof.
  destruct (check_condition_spec e c s) as (s1 & Hrun & Happ & Hunset & Hset).
  destruct (pn_condition_is_set c).
  - destruct (Hset eq_refl) as (Hx & extra & Hpr & Hc).
    exists s1. eexists. split; [exact Hrun | ]. split; [exact Happ | ].
    split; [exact Hc | ].
    change (?x :: extra ++ ?y) with ([x] ++ extra ++ y).
    rewrite !deliveries_app, !messages_app, !close_requested_app.
    rewrite (prints_deliveries _ Hpr), (prints_messages _ Hpr), (prints_close _ Hpr).
    simpl. auto.
  - rewrite (Hunset eq_refl) in *. exists s, []. rewrite app_nil_r.
    repeat split; auto.
Qed.

Ltac kind Hty :=
  unfold stops, sends, accepted, marks_failure, closes, condition_of, accepted;
  rewrite ?Hty; cbn [negb]; try reflexivity.

Lemma handle_ok (e : pn_event_t) (s : state) :
  typed s ->
  exists b s', handle fuel e s = Returns b s' /\ step_ok s e b s'.
Proof.
  intros Ht. unfold handle.
  destruct (pn_event_type e) eqn:Hty.
  - (* PN_CONNECTION_INIT *)
    unfold bind at 1. unfold get_app at 1.
    destruct (username (app s)) as [u | ];
      (eexists; eexists; split; [reflexivity | ]);
      (eapply step_ok_quiet;
       [ kind Hty | kind Hty | exact Ht
       | reflexivity | reflexivity | reflexivity | reflexivity
       | kind Hty
       | simpl; rewrite <- ?app_assoc; reflexivity
       | reflexivity | reflexivity | kind Hty | kind Hty ]).
  - (* PN_CONNECTION_REMOTE_OPEN *)
    unfold bind at 1. rewrite set_topic_prefix_spec.
    assert (Hstop : stops s e = resolution_fails s e) by kind Hty.
    assert (Hfail : marks_failure s e = resolution_fails s e) by kind Hty.
    unfold resolution_fails in Hstop, Hfail.
    destruct (get_data_map_string_property _ _ _) as [rc v]. simpl fst; simpl snd.
    unfold bind at 1. unfold bind at 1. unfold bind at 1. unfold get_app at 1.
    destruct (0 <? rc); simpl;
      match goal with
      | |- context [amqp_destination_address ?x ?y ?z] =>
          destruct (amqp_destination_address x y z) as [rc' topic]
      end; simpl in Hstop, Hfail;
      (destruct (rc' <? 0);
       (eexists; eexists; split; [reflexivity | ]);
       (eapply step_ok_quiet;
        [ now rewrite Hstop | kind Hty | exact Ht
        | reflexivity | reflexivity | reflexivity | reflexivity
        | kind Hty
        | simpl; rewrite <- ?app_assoc; reflexivity
        | reflexivity | reflexivity | kind Hty | now rewrite Hfail ])).
  - (* PN_LINK_FLOW *)
    destruct Ht as (Hbuf & Hsent & Hcount).
    destruct (send_loop_ok (Z.to_nat (pn_link_credit e)) s Hbuf Hsent Hcount)
      as (s' & Hrun & Hs & Hc & Hx & Ha & Hm & Hp & Had & Hbuf' & Hcap).
    unfold bind. rewrite Hrun. exists true, s'. split; [reflexivity | ].
    assert (Hk : Z.to_nat (Z.min (Z.of_nat (Z.to_nat (pn_link_credit e)))
                                 (message_count (app s) - sent (app s)))
                 = sends s e)
      by (unfold sends; rewrite Hty; lia).
    rewrite Hk in Hs, Hc.
    unfold step_ok.
    repeat match goal with |- _ /\ _ => split end; auto.
    + kind Hty.
    + assert (Hle : Z.of_nat (sends s e)
                    <= Z.max 0 (message_count (app s) - sent (app s)))
        by (unfold sends; rewrite Hty; lia).
      unfold typed. rewrite Hs, Hm. unfold int_range in *.
      repeat match goal with |- _ /\ _ => split end; auto; lia.
    + rewrite Ha. kind Hty.
    + rewrite Hx. kind Hty.
    + eexists. split; [exact Hc | ].
      rewrite send_calls_deliveries, send_calls_messages, send_calls_close.
      repeat split. kind Hty.
  - (* PN_DELIVERY *)
    destruct (pn_delivery_remote_state (pn_event_delivery e) =? PN_ACCEPTED) eqn:Hacc.
    + unfold bind at 1. unfold get_app at 1.
      unfold bind at 1. unfold put_app at 1.
      unfold bind at 1. unfold get_app at 1. simpl.
      destruct (int_incr (acknowledged (app s)) =? message_count (app s)) eqn:Hall;
        (eexists; eexists; split; [reflexivity | ]).
      * eapply step_ok_quiet;
          [ kind Hty | kind Hty | exact Ht
          | reflexivity | reflexivity | reflexivity | reflexivity
          | kind Hty; now rewrite Hacc
          | simpl; rewrite <- ?app_assoc; reflexivity
          | reflexivity | reflexivity
          | kind Hty; now rewrite Hacc, Hall | kind Hty; now rewrite Hacc ].
      * eapply step_ok_quiet with (new := []);
          [ kind Hty | kind Hty | exact Ht
          | reflexivity | reflexivity | reflexivity | reflexivity
          | kind Hty; now rewrite Hacc
          | simpl; now rewrite app_nil_r
          | reflexivity | reflexivity
          | kind Hty; now rewrite Hacc, Hall | kind Hty; now rewrite Hacc ].
    + unfold bind at 1. unfold do_call at 1. unfold bind at 1.
      match goal with |- context [check_condition fuel e ?c ?s0] =>
        destruct (check_condition_calls e c s0)
          as (s1 & new & Hrun & Happ & Hc & Hd & Hmsg & Hcl & Hx)
      end.
      rewrite Hrun. simpl in Happ, Hc.
      eexists; eexists; split; [reflexivity | ].
      eapply step_ok_quiet;
        [ kind Hty | kind Hty | exact Ht
        | simpl; now rewrite Happ | simpl; now rewrite Happ | simpl; now rewrite Happ
        | simpl; now rewrite Happ
        | kind Hty; rewrite Hacc; simpl; now rewrite Happ
        | simpl; rewrite Hc, <- !app_assoc; reflexivity
        | simpl; rewrite deliveries_app, Hd; reflexivity
        | simpl; rewrite messages_app, Hmsg; reflexivity
        | kind Hty; rewrite Hacc; simpl; rewrite close_requested_app; simpl;
          now rewrite orb_true_r
        | kind Hty; now rewrite Hacc ].
  - (* PN_TRANSPORT_CLOSED *)
    destruct (check_condition_calls e (pn_transport_condition e) s)
      as (s1 & new & Hrun & Happ & Hc & Hd & Hmsg & Hcl & Hx).
    unfold bind. rewrite Hrun.
    eexists; eexists; split; [reflexivity | ].
    eapply step_ok_quiet;
      [ kind Hty | kind Hty | exact Ht
      | now rewrite Happ | now rewrite Happ | now rewrite Happ | now rewrite Happ
      | kind Hty; now rewrite Happ
      | exact Hc | exact Hd | exact Hmsg | kind Hty; exact Hcl | kind Hty; exact Hx ].
  - (* PN_CONNECTION_REMOTE_CLOSE *)
    destruct (check_condition_calls e (pn_connection_remote_condition e) s)
      as (s1 & new & Hrun & Happ & Hc & Hd & Hmsg & Hcl & Hx).
    unfold bind. rewrite Hrun.
    eexists; eexists; split; [reflexivity | ].
    eapply step_ok_quiet;
      [ kind Hty | kind Hty | exact Ht
      | simpl; now rewrite Happ | simpl; now rewrite Happ | simpl; now rewrite Happ
      | simpl; now rewrite Happ
      | kind Hty; simpl; now rewrite Happ
      | simpl; rewrite Hc, <- app_assoc; reflexivity
      | rewrite deliveries_app, Hd; reflexivity
      | rewrite messages_app, Hmsg; reflexivity
      | kind Hty; rewrite close_requested_app; simpl; now rewrite orb_true_r
      | kind Hty; exact Hx ].
  - (* PN_SESSION_REMOTE_CLOSE *)
    destruct (check_condition_calls e (pn_session_remote_condition e) s)
      as (s1 & new & Hrun & Happ & Hc & Hd & Hmsg & Hcl & Hx).
    unfold bind. rewrite Hrun.
    eexists; eexists; split; [reflexivity | ].
    eapply step_ok_quiet;
      [ kind Hty | kind Hty | exact Ht
      | simpl; now rewrite Happ | simpl; now rewrite Happ | simpl; now rewrite Happ
      | simpl; now rewrite Happ
      | kind Hty; simpl; now rewrite Happ
      | simpl; rewrite Hc, <- app_assoc; reflexivity
      | rewrite deliveries_app, Hd; reflexivity
      | rewrite messages_app, Hmsg; reflexivity
      | kind Hty; rewrite close_requested_app; simpl; now rewrite orb_true_r
      | kind Hty; exact Hx ].
  - (* PN_LINK_REMOTE_CLOSE *)
    destruct (check_condition_calls e (pn_link_remote_condition e) s)
      as (s1 & new & Hrun & Happ & Hc & Hd & Hmsg & Hcl & Hx).
    unfold bind. rewrite Hrun.
    eexists; eexists; split; [reflexivity | ].
    eapply step_ok_quiet;
      [ kind Hty | kind Hty | exact Ht
      | simpl; now rewrite Happ | simpl; now rewrite Happ | simpl; now rewrite Happ
      | simpl; now rewrite Happ
      | kind Hty; simpl; now rewrite Happ
      | simpl; rewrite Hc, <- app_assoc; reflexivity
      | rewrite deliveries_app, Hd; reflexivity
      | rewrite messages_app, Hmsg; reflexivity
      | kind Hty; rewrite close_requested_app; simpl; now rewrite orb_true_r
      | kind Hty; exact Hx ].
  - (* PN_LINK_REMOTE_DETACH *)
    destruct (check_condition_calls e (pn_link_remote_condition e) s)
      as (s1 & new & Hrun & Happ & Hc & Hd & Hmsg & Hcl & Hx).
    unfold bind. rewrite Hrun.
    eexists; eexists; split; [reflexivity | ].
    eapply step_ok_quiet;
      [ kind Hty | kind Hty | exact Ht
      | simpl; now rewrite Happ | simpl; now rewrite Happ | simpl; now rewrite Happ
      | simpl; now rewrite Happ
      | kind Hty; simpl; now rewrite Happ
      | simpl; rewrite Hc, <- app_assoc; reflexivity
      | rewrite deliveries_app, Hd; reflexivity
      | rewrite messages_app, Hmsg; reflexivity
      | kind Hty; rewrite close_requested_app; simpl; now rewrite orb_true_r
      | kind Hty; exact Hx ].
  - (* PN_PROACTOR_INACTIVE *)
    exists false, s. split; [reflexivity | ].
    eapply step_ok_quiet with (new := []);
      [ kind Hty | kind Hty | exact Ht
      | reflexivity | reflexivity | reflexivity | reflexivity
      | kind Hty
      | now rewrite app_nil_r | reflexivity | reflexivity | kind Hty | kind Hty ].
  - (* any other event *)
    exists true, s. split; [reflexivity | ].
    eapply step_ok_quiet with (new := []);
      [ kind Hty | kind Hty | exact Ht
      | reflexivity | reflexivity | reflexivity | reflexivity
      | kind Hty
      | now rewrite app_nil_r | reflexivity | reflexivity | kind Hty | kind Hty ].
Qed.

(** *** Sequences of events *)

Lemma credit_offered_nonneg (evs : list pn_event_t) : 0 <= credit_offered evs.
Proof.
  induction evs as [ | e evs IH]; simpl; [lia | ].
  destruct (pn_event_type e); lia.
Qed.

Lemma credit_offered_app (l1 l2 : list pn_event_t) :
  credit_offered (l1 ++ l2) = credit_offered l1 + credit_offered l2.
Proof.
  induction l1 as [ | e l1 IH]; simpl; [reflexivity | ].
  destruct (pn_event_type e); lia.
Qed.

Lemma sends_credit (s : state) (e : pn_event_t) :
  Z.of_nat (sends s e)
  = Z.min (credit_offered [e]) (Z.max 0 (message_count (app s) - sent (app s))).
Proof.
  unfold sends, credit_offered. simpl. destruct (pn_event_type e); lia.
Qed.

Lemma handle_all_app (l1 l2 : list pn_event_t) (s : state) :
  handle_all fuel (l1 ++ l2) s
  = (handle_all fuel l1 ;; handle_all fuel l2) s.
Proof.
  revert s. induction l1 as [ | e l1 IH]; intros s; simpl.
  - reflexivity.
  - unfold bind. destruct (handle fuel e s) as [b s' | | ]; auto.
Qed.

(** Any sequence of events is handled, and sends as many messages as
    the credit offered and the count allow, with the sequence numbers
    that follow [sent]. *)
Lemma handle_all_ok (evs : list pn_event_t) : forall (s : state),
  typed s ->
  exists s',
    handle_all fuel evs s = Returns tt s' /\
    typed s' /\
    message_count (app s') = message_count (app s) /\
    sent (app s')
    = sent (app s)
      + Z.min (credit_offered evs) (Z.max 0 (message_count (app s) - sent (app s))) /\
    capacity (message_buffer (app s)) <= capacity (message_buffer (app s')) /\
    (exit_code s = 1 -> exit_code s' = 1) /\
    exists new,
      calls s' = calls s ++ new /\
      deliveries new
      = map pn_dtag (Zseq (sent (app s) + 1) (Z.to_nat (sent (app s') - sent (app s)))) /\
      messages new
      = map message_for (Zseq (sent (app s) + 1) (Z.to_nat (sent (app s') - sent (app s)))).
Proof.
  induction evs as [ | e evs IH]; intros s Ht.
  - exists s. simpl. split; [reflexivity | ].
    split; [exact Ht | ]. split; [reflexivity | ].
    split; [lia | ]. split; [apply Z.le_refl | ]. split; [auto | ].
    exists []. rewrite app_nil_r, Z.sub_diag. auto.
  - destruct (handle_ok e s Ht)
      as (b & s1 & Hrun & _ & Ht1 & Hm1 & _ & Hs1 & _ & Hcap1 & Hx1 & new1 & Hc1 & Hd1 & Hmsg1 & _).
    destruct (IH s1 Ht1)
      as (s' & Hrun' & Ht' & Hm' & Hs' & Hcap' & Hx' & new' & Hc' & Hd' & Hmsg').
    exists s'. simpl handle_all. unfold bind. rewrite Hrun.
    split; [exact Hrun' | ]. split; [exact Ht' | ].
    split; [congruence | ].
    pose proof (credit_offered_nonneg evs) as Hpos.
    pose proof (sends_credit s e) as Hk.
    assert (Hce : credit_offered (e :: evs) = credit_offered [e] + credit_offered evs)
      by apply (credit_offered_app [e] evs).
    pose proof (credit_offered_nonneg [e]) as Hpos1.
    split; [rewrite Hs', Hm1, Hs1, Hce; lia | ].
    split; [lia | ].
    split.
    { intros H1. apply Hx'. rewrite Hx1, H1. now destruct (marks_failure s e). }
    exists (new1 ++ new'). rewrite Hc', Hc1, <- app_assoc.
    split; [reflexivity | ].
    replace (Z.to_nat (sent (app s') - sent (app s)))
      with (sends s e + Z.to_nat (sent (app s') - sent (app s1)))%nat by lia.
    rewrite Zseq_app, !map_app, deliveries_app, messages_app, Hd1, Hmsg1, Hd', Hmsg'.
    replace (sent (app s) + 1 + Z.of_nat (sends s e)) with (sent (app s1) + 1) by lia.
    auto.
Qed.



Lemma tracked_init (a : app_data_t) : initial a -> tracked [] (init_state a).
Proof.
  intros (Hs & Ha & Hb & Hm). unfold tracked, typed, buffer_ok, int_range. simpl.
  rewrite Hs, Ha, Hb. simpl. unfold INT_MAX in *.
  repeat match goal with |- _ /\ _ => split end;
    try lia; try reflexivity; try discriminate.
  - constructor.
  - intros x [].
Qed.





Lemma along_app (P : list pn_event_t -> state -> pn_event_t -> Prop)
    (l1 : list pn_event_t) : forall (past l2 : list pn_event_t) (s s1 : state),
  along P fuel past (l1 ++ l2) s ->
  handle_all fuel l1 s = Returns tt s1 ->
  along P fuel past l1 s /\ along P fuel (past ++ l1) l2 s1.
Proof.
  induction l1 as [ | e l1 IH]; intros past l2 s s1 Hal Hrun.
  - simpl in *. injection Hrun as <-. rewrite app_nil_r. auto.
  - simpl in Hal, Hrun. destruct Hal as (HP & Hal). unfold bind in Hrun.
    destruct (handle fuel e s) as [b s' | | ] eqn:He; try discriminate.
    destruct (IH _ _ _ _ Hal Hrun) as (H1 & H2).
    rewrite <- app_assoc in H2. simpl. rewrite He. auto.
Qed.

(** *** The loop *)

Lemma run_app (b1 b2 : list (list pn_event_t)) (s : state) :
  run fuel (b1 ++ b2) s
  = (continue <- run fuel b1 ;; if continue then run fuel b2 else ret false) s.
Proof.
  revert s. induction b1 as [ | events b1 IH]; intros s; simpl.
  - reflexivity.
  - unfold bind. destruct (run_batch fuel events s) as [[ | ] s' | | ]; auto.
Qed.

(** While no event stops it, the loop handles every event of every
    batch and goes on. *)
Lemma run_batch_nonstop (evs : list pn_event_t) : forall (past : list pn_event_t) (s : state),
  typed s -> along nonstop fuel past evs s ->
  exists s',
    run_batch fuel evs s = Returns true s' /\
    handle_all fuel evs s = Returns tt s' /\ typed s'.
Proof.
  induction evs as [ | e evs IH]; intros past s Ht Hal.
  - exists s. auto.
  - destruct Hal as (Hns & Hal).
    destruct (handle_ok e s Ht) as (b & s1 & Hrun & Hb & Ht1 & _).
    rewrite Hrun in Hal. unfold nonstop in Hns. rewrite Hns in Hb. subst b.
    destruct (IH _ _ Ht1 Hal) as (s' & Hrun' & Hall & Ht').
    exists s'. simpl. unfold bind. rewrite Hrun. auto.
Qed.

Lemma run_nonstop (batches : list (list pn_event_t)) :
  forall (past : list pn_event_t) (s : state),
  typed s -> along nonstop fuel past (List.concat batches) s ->
  exists s',
    run fuel batches s = Returns true s' /\
    handle_all fuel (List.concat batches) s = Returns tt s' /\ typed s'.
Proof.
  induction batches as [ | events batches IH]; intros past s Ht Hal.
  - exists s. auto.
  - simpl List.concat in *.
    destruct (handle_all_ok events s Ht) as (s1 & Hall1 & _).
    destruct (along_app _ _ _ _ _ _ Hal Hall1) as (Hal1 & Hal2).
    destruct (run_batch_nonstop events past s Ht Hal1) as (s1' & Hrun1 & Hall1' & Ht1).
    rewrite Hall1 in Hall1'. injection Hall1' as <-.
    destruct (IH _ _ Ht1 Hal2) as (s' & Hrun' & Hall' & Ht').
    exists s'. simpl. unfold bind at 1. rewrite Hrun1.
    rewrite handle_all_app. unfold bind. rewrite Hall1. auto.
Qed.






(** ** The claims *)

(** C8. [set_topic_prefix_from_connection] returns what the property
    lookup returned.  It replaces the prefix of the session by the
    value found exactly when that is more than 0; for every other
    result the state is left as it is.  In both cases it returns (no
    error is raised), the exit code is as it was and no call is made on
    the connection, so it is not asked to close. *)
Theorem set_topic_prefix_from_connection_result (e : pn_event_t) (s : state) :
  let r := get_data_map_string_property (pn_connection_remote_properties e)
                                        TOPIC_PREFIX_KEY 255 in
  exists s',
    set_topic_prefix_from_connection e s = Returns (fst r) s' /\
    exit_code s' = exit_code s /\ calls s' = calls s /\
    (0 < fst r ->
     app s' = set_amqp_topic_prefix (app s) (snd r) /\
     amqp_topic_prefix (app s') = snd r) /\
    (fst r <= 0 -> s' = s).
Proof.
  clear codec format enough_fuel.
  intros r. rewrite set_topic_prefix_spec. fold r.
  eexists. split; [reflexivity | ].
  destruct (0 <? fst r) eqn:Hrc.
  - apply Z.ltb_lt in Hrc. simpl. repeat split; auto. lia.
  - apply Z.ltb_ge in Hrc. repeat split; auto; lia.
Qed.

(** C4, as the code has it.  [check_condition] returns.  When the
    condition is set it prints the name of the event type, the name of
    the condition and its description, then asks the connection to
    close and sets the exit code to 1.  When the condition is not set
    it does nothing: the exit code and the connection are as they
    were. *)
Theorem check_condition_only_when_set
    (e : pn_event_t) (cond : pn_condition_t) (s : state) :
  exists s',
    check_condition fuel e cond s = Returns tt s' /\
    (pn_condition_is_set cond = false -> s' = s) /\
    (pn_condition_is_set cond = true ->
     exit_code s' = 1 /\
     exists extra,
       forallb is_print extra = true /\
       calls s'
       = calls s
         ++ fprintf_stderr
              (pn_event_type_name (pn_event_type e) ++ ": "
               ++ pn_condition_get_name cond ++ ": "
               ++ pn_condition_get_description cond ++ nl)%string
            :: extra ++ [pn_connection_close]).
Proof.
  destruct (check_condition_spec e cond s) as (s' & Hrun & _ & Hunset & Hset).
  exists s'. auto.
Qed.

(** C6. Over a codec that gives every message an encoded size of at
    most [2^63] bytes, [encode_message] returns: its loop stops after
    some number [k] of doublings of the capacity it found, which is 128
    on the first call.  The capacity after the call is not less than
    before it, the bytes returned are no more than that capacity, and
    the buffer is fit for the next call.  Across the calls made while
    any sequence of events is handled the capacity never decreases. *)
Theorem encode_message_terminates (s : state) :
  typed s ->
  let m := message_for (sent (app s)) in
  (exists s' k,
     encode_message fuel s
     = Returns {| bytes_size := wire_size m; bytes_of := m |} s' /\
     0 <= k /\
     size (message_buffer (app s'))
     = (if start (message_buffer (app s))
        then size (message_buffer (app s)) else 128) * 2 ^ k /\
     capacity (message_buffer (app s)) <= capacity (message_buffer (app s')) /\
     wire_size m <= capacity (message_buffer (app s')) /\
     buffer_ok (message_buffer (app s'))) /\
  (forall evs, exists s',
     handle_all fuel evs s = Returns tt s' /\
     capacity (message_buffer (app s)) <= capacity (message_buffer (app s'))).
Proof.
  intros (Hbuf & Hsent & Hcount) m. split.
  - destruct (encode_message_ok s Hbuf)
      as (s' & k & Hrun & _ & Hk & Hst & Hsz & Hmax & Hfit).
    exists s', k. fold m in Hrun, Hfit.
    split; [exact Hrun | ]. split; [exact Hk | ]. split; [exact Hsz | ].
    unfold capacity, buffer_ok. rewrite Hst.
    assert (Hpow : 1 <= 2 ^ k) by (apply (Z.pow_le_mono_r 2 0 k); lia).
    destruct (start (message_buffer (app s))) eqn:Hstart.
    + pose proof (Hbuf Hstart).
      repeat match goal with |- _ /\ _ => split end; auto; intros; nia.
    + repeat match goal with |- _ /\ _ => split end; auto; intros; nia.
  - intros evs.
    destruct (handle_all_ok evs s (conj Hbuf (conj Hsent Hcount)))
      as (s' & Hrun & _ & _ & _ & Hcap & _).
    exists s'. auto.
Qed.

(** C3. On a link-flow event with credit [c > 0] and [sent] less than
    the message count, [handle] makes exactly [k = min(c, count - sent)]
    sends and returns true.  The sends are for the sequence numbers
    [sent + 1, .., sent + k] in that order; each consists of a delivery
    tagged with the bytes of the number, the encoding of the message
    for that number, and the advance of the link.  The message for [n]
    has the body [sequence_<n>] and is durable.  Afterwards [sent] is
    [sent + k], which is at most the message count. *)
Theorem link_flow_sends (e : pn_event_t) (s : state) :
  typed s ->
  pn_event_type e = PN_LINK_FLOW ->
  0 < pn_link_credit e ->
  sent (app s) < message_count (app s) ->
  let k := Z.to_nat (Z.min (pn_link_credit e)
                           (message_count (app s) - sent (app s))) in
  exists s',
    handle fuel e s = Returns true s' /\
    (0 < k)%nat /\
    calls s'
    = calls s ++ flat_map (send_calls wire_size) (Zseq (sent (app s) + 1) k) /\
    (forall n,
       send_calls wire_size n
       = [pn_delivery (pn_dtag n);
          pn_link_send {| bytes_size := wire_size (message_for n);
                          bytes_of := message_for n |};
          pn_link_advance] /\
       pn_message_body (message_for n) = Some ("sequence_" ++ decimal n)%string /\
       pn_message_is_durable (message_for n) = true) /\
    sent (app s') = sent (app s) + Z.of_nat k /\
    sent (app s') <= message_count (app s') /\
    message_count (app s') = message_count (app s).
Proof.
  intros (Hbuf & Hsent & Hcount) Hty Hcredit Hlt k.
  destruct (send_loop_ok (Z.to_nat (pn_link_credit e)) s Hbuf Hsent Hcount)
    as (s' & Hrun & Hs & Hc & _ & _ & Hm & _).
  assert (Hk : Z.to_nat (Z.min (Z.of_nat (Z.to_nat (pn_link_credit e)))
                               (message_count (app s) - sent (app s))) = k)
    by (subst k; lia).
  rewrite Hk in Hs, Hc.
  exists s'. unfold handle. rewrite Hty. unfold bind. rewrite Hrun.
  split; [reflexivity | ]. split; [subst k; lia | ].
  split; [exact Hc | ]. split; [intros n; repeat split | ].
  split; [exact Hs | ]. split; [rewrite Hs, Hm; subst k; lia | exact Hm].
Qed.

(** C10. [handle] returns true on every event that is neither
    [PN_PROACTOR_INACTIVE] nor a [PN_CONNECTION_REMOTE_OPEN] on which
    the address does not resolve: a transport-closed event, a remote
    close or detach, a rejected delivery do not stop the loop.  So
    [run] handles every event of every batch as long as the events are
    of those that do not stop it, whatever conditions or delivery
    outcomes they carry, and is still running afterwards; it returns on
    the [PN_PROACTOR_INACTIVE] that follows. *)
Theorem handle_continues (e : pn_event_t) (s : state) :
  typed s ->
  (pn_event_type e <> PN_PROACTOR_INACTIVE ->
   (pn_event_type e = PN_CONNECTION_REMOTE_OPEN -> resolution_fails s e = false) ->
   exists s', handle fuel e s = Returns true s') /\
  (forall batches,
     along nonstop fuel [] (List.concat batches) s ->
     exists s',
       run fuel batches s = Returns true s' /\
       handle_all fuel (List.concat batches) s = Returns tt s' /\
       forall e_in rest more,
         pn_event_type e_in = PN_PROACTOR_INACTIVE ->
         run fuel (batches ++ (e_in :: rest) :: more) s = Returns false s').
Proof.
  intros Ht. split.
  - intros Hin Hopen.
    destruct (handle_ok e s Ht) as (b & s' & Hrun & Hb & _).
    exists s'. rewrite Hrun, Hb. f_equal.
    unfold stops. destruct (pn_event_type e); try reflexivity.
    + now rewrite Hopen.
    + congruence.
  - intros batches Hal.
    destruct (run_nonstop batches [] s Ht Hal) as (s' & Hrun & Hall & Ht').
    exists s'. split; [exact Hrun | ]. split; [exact Hall | ].
    intros e_in rest more Hty. rewrite run_app. unfold bind. rewrite Hrun.
    simpl. unfold bind, handle. rewrite Hty. reflexivity.
Qed.

(** C5, as the code has it.  When the address does not resolve on a
    connection-remote-open event, [handle] sets the exit code to 1 and
    returns false: it opens no link and sends no message, and [sent]
    is as it was.  The loop of [run] stops at once: it returns on that
    event, in the state the event left, whatever events and batches
    follow it, so that none of them is handled. *)
Theorem resolution_failure_stops
    (e : pn_event_t) (s : state) (rest : list pn_event_t)
    (batches : list (list pn_event_t)) :
  pn_event_type e = PN_CONNECTION_REMOTE_OPEN ->
  resolution_fails s e = true ->
  exists s',
    handle fuel e s = Returns false s' /\
    exit_code s' = 1 /\
    sent (app s') = sent (app s) /\
    calls s' = calls s ++ [pn_session_open; pn_sender "my_sender"] /\
    run_batch fuel (e :: rest) s = Returns false s' /\
    run fuel ((e :: rest) :: batches) s = Returns false s'.
Proof.
  intros Hty Hfail.
  assert (Hrun : exists s',
             handle fuel e s = Returns false s' /\ exit_code s' = 1 /\
             sent (app s') = sent (app s) /\
             calls s' = calls s ++ [pn_session_open; pn_sender "my_sender"]).
  { unfold handle. rewrite Hty. unfold bind at 1. rewrite set_topic_prefix_spec.
    unfold resolution_fails in Hfail.
    destruct (get_data_map_string_property _ _ _) as [rc v]. simpl fst; simpl snd.
    unfold bind at 1. unfold bind at 1. unfold bind at 1. unfold get_app at 1.
    destruct (0 <? rc); simpl;
      match goal with
      | |- context [amqp_destination_address ?x ?y ?z] =>
          destruct (amqp_destination_address x y z) as [rc' topic]
      end; simpl in Hfail; rewrite Hfail;
      (eexists; split; [reflexivity | ]); simpl;
      rewrite <- app_assoc; auto. }
  destruct Hrun as (s' & Hrun & Hx & Hs & Hc).
  exists s'. simpl. unfold bind. rewrite Hrun. auto 6.
Qed.

(** C7, as the code has it.  On a delivery event whose outcome is not
    accepted, [handle] sets the exit code to 1, whether or not the
    disposition carries a condition, asks the connection to close,
    sends no message and returns true.  From then on the exit code
    stays 1, and every further message is sent by a later link-flow
    event: the events that follow send as many messages as the credit
    they offer and the count allow, and none when they offer no
    credit. *)
Theorem rejected_delivery (e : pn_event_t) (s : state) :
  typed s ->
  pn_event_type e = PN_DELIVERY ->
  pn_delivery_remote_state (pn_event_delivery e) <> PN_ACCEPTED ->
  exists s',
    handle fuel e s = Returns true s' /\
    exit_code s' = 1 /\
    close_requested (calls s') = true /\
    sent (app s') = sent (app s) /\
    messages (calls s') = messages (calls s) /\
    deliveries (calls s') = deliveries (calls s) /\
    forall evs, exists s'',
      handle_all fuel evs s' = Returns tt s'' /\
      exit_code s'' = 1 /\
      close_requested (calls s'') = true /\
      sent (app s'')
      = sent (app s')
        + Z.min (credit_offered evs)
                (Z.max 0 (message_count (app s') - sent (app s'))) /\
      messages (calls s'')
      = messages (calls s')
        ++ map message_for (Zseq (sent (app s') + 1)
                                 (Z.to_nat (sent (app s'') - sent (app s')))) /\
      (credit_offered evs = 0 -> messages (calls s'') = messages (calls s')).
Proof.
  intros Ht Hty Hstate.
  assert (Hacc : accepted e = false).
  { unfold accepted. rewrite Hty. now apply Z.eqb_neq. }
  destruct (handle_ok e s Ht)
    as (b & s' & Hrun & Hb & Ht' & _ & _ & Hs & _ & _ & Hx & new & Hc & Hd & Hmsg & Hcl).
  assert (Hk : sends s e = 0%nat) by (unfold sends; now rewrite Hty).
  rewrite Hk in Hs, Hd, Hmsg. simpl in Hd, Hmsg.
  unfold stops in Hb. unfold marks_failure in Hx. unfold closes in Hcl.
  rewrite Hty in Hb, Hx, Hcl. rewrite Hacc in Hx, Hcl. simpl in Hb, Hx. subst b.
  exists s'. split; [exact Hrun | ]. split; [exact Hx | ].
  assert (Hclose : close_requested (calls s') = true)
    by (rewrite Hc, close_requested_app, Hcl; apply orb_true_r).
  split; [exact Hclose | ].
  split; [lia | ].
  split; [now rewrite Hc, messages_app, Hmsg, app_nil_r | ].
  split; [now rewrite Hc, deliveries_app, Hd, app_nil_r | ].
  intros evs.
  destruct (handle_all_ok evs s' Ht')
    as (s'' & Hrun' & _ & _ & Hs'' & _ & Hx'' & new' & Hc'' & _ & Hmsg'').
  exists s''. split; [exact Hrun' | ]. split; [auto | ].
  split; [rewrite Hc'', close_requested_app, Hclose; reflexivity | ].
  split; [exact Hs'' | ].
  split; [now rewrite Hc'', messages_app, Hmsg'' | ].
  intros Hzero. rewrite Hc'', messages_app, Hmsg''.
  replace (Z.to_nat (sent (app s'') - sent (app s'))) with 0%nat by lia.
  apply app_nil_r.
Qed.

Lemma combine_map {A B C : Type} (f : A -> B) (g : A -> C) (l : list A) :
  combine (map f l) (map g l) = map (fun x => (f x, g x)) l.
Proof. induction l as [ | x l IH]; simpl; [reflexivity | now rewrite IH]. Qed.

(** C9. After any sequence of events from the start, the deliveries
    created and the messages sent are those for the sequence numbers
    1, 2, .., [sent], in that order, and [sent] is at most the message
    count; it is the message count once the credit offered covers it.
    So the first message sent has the body [sequence_1], no message
    with the body [sequence_0] is sent, and for every send the [int]
    in the bytes of the tag is the number in the body of the message. *)
Theorem sequence_numbers_from_one (a : app_data_t) (evs : list pn_event_t) :
  initial a ->
  exists s,
    handle_all fuel evs (init_state a) = Returns tt s /\
    0 <= sent (app s) <= message_count a /\
    (message_count a <= credit_offered evs -> sent (app s) = message_count a) /\
    deliveries (calls s) = map pn_dtag (Zseq 1 (Z.to_nat (sent (app s)))) /\
    messages (calls s) = map message_for (Zseq 1 (Z.to_nat (sent (app s)))) /\
    (0 < sent (app s) ->
     exists m, hd_error (messages (calls s)) = Some m /\
               pn_message_body m = Some "sequence_1"%string) /\
    (forall m, In m (messages (calls s)) ->
               pn_message_body m <> Some "sequence_0"%string) /\
    (forall tag m,
       In (tag, m) (combine (deliveries (calls s)) (messages (calls s))) ->
       exists body,
         pn_message_body m = Some body /\
         sequence_number body = Some (dtag_int tag)).
Proof.
  intros Hinit.
  pose proof (tracked_init a Hinit) as (Ht & _).
  destruct Hinit as (Hs0 & Ha0 & Hb0 & Hm0).
  destruct (handle_all_ok evs (init_state a) Ht)
    as (s & Hrun & Ht' & Hm & Hs & _ & _ & new & Hc & Hd & Hmsg).
  simpl in Hm, Hs, Hc, Hd, Hmsg. rewrite Hs0 in Hs, Hd, Hmsg.
  rewrite Z.sub_0_r in Hd, Hmsg. simpl in Hd, Hmsg, Hs.
  pose proof (credit_offered_nonneg evs) as Hpos.
  exists s. split; [exact Hrun | ]. split; [lia | ]. split; [lia | ].
  rewrite Hc, Hd, Hmsg.
  split; [reflexivity | ]. split; [reflexivity | ].
  split; [ | split].
  - intros Hsent. exists (message_for 1).
    destruct (Z.to_nat (sent (app s))) as [ | n] eqn:Hn; [lia | ].
    rewrite Zseq_cons. split; reflexivity.
  - intros m Hin. apply in_map_iff in Hin. destruct Hin as (n & <- & Hn).
    apply Zseq_In in Hn. simpl. intros [= Hbody].
    pose proof (sequence_number_sprintf n) as Hnum.
    unfold sprintf_sequence in Hnum. rewrite Hbody in Hnum.
    vm_compute in Hnum. injection Hnum as Hnum. lia.
  - intros tag m Hin. rewrite combine_map in Hin.
    apply in_map_iff in Hin. destruct Hin as (n & [= <- <-] & Hn).
    apply Zseq_In in Hn.
    exists (sprintf_sequence n). split; [reflexivity | ].
    rewrite sequence_number_sprintf, dtag_int_pn_dtag; [reflexivity | ].
    unfold int_range, INT_MAX in *. lia.
Qed.


Lemma pn_dtag_NoDup (n : nat) :
  Z.of_nat n <= INT_MAX -> NoDup (map pn_dtag (Zseq 1 n)).
Proof.
  intros Hn. apply NoDup_map_NoDup_ForallPairs; [ | apply Zseq_NoDup].
  intros x y Hx Hy. apply Zseq_In in Hx, Hy.
  apply pn_dtag_inj; unfold int_range, INT_MAX in *; lia.
Qed.



(** ** Further properties of the handler and of the loop *)

Lemma run_batch_app (l1 l2 : list pn_event_t) (s : state) :
  run_batch fuel (l1 ++ l2) s
  = (continue <- run_batch fuel l1 ;;
     if continue then run_batch fuel l2 else ret false) s.
Proof.
  clear codec format enough_fuel.
  revert s. induction l1 as [ | e l1 IH]; intros s; simpl.
  - reflexivity.
  - unfold bind. destruct (handle fuel e s) as [[ | ] s' | | ]; auto.
Qed.

(** X1. How the proactor groups the events into batches makes no
    difference: [run] on the batches is the loop over all their events
    in one batch.  This holds whatever the library does, also when the
    process exits or a loop does not end. *)
Theorem run_batches_irrelevant (batches : list (list pn_event_t)) (s : state) :
  run fuel batches s = run_batch fuel (List.concat batches) s.
Proof.
  clear codec format enough_fuel.
  revert s. induction batches as [ | events batches IH]; intros s.
  - reflexivity.
  - simpl. rewrite run_batch_app. unfold bind.
    destruct (run_batch fuel events s) as [[ | ] s' | | ]; auto.
Qed.

(** X2. A link-flow event with no credit, or one that comes when
    [sent] has reached the message count, does nothing at all: [handle]
    returns true and the state is the one it was called in; the encode
    buffer is not even allocated. *)
Theorem link_flow_without_work (e : pn_event_t) (s : state) :
  pn_event_type e = PN_LINK_FLOW ->
  pn_link_credit e <= 0 \/ message_count (app s) <= sent (app s) ->
  handle fuel e s = Returns true s.
Proof.
  clear codec format enough_fuel.
  intros Hty Hidle. unfold handle. rewrite Hty. unfold bind.
  destruct (Z.to_nat (pn_link_credit e)) as [ | n] eqn:Hn.
  - reflexivity.
  - destruct Hidle as [Hc | Hs]; [lia | ].
    simpl. unfold bind, get_app.
    replace (sent (app s) <? message_count (app s)) with false
      by (symmetry; apply Z.ltb_ge; exact Hs).
    reflexivity.
Qed.

(** X3. Only link-flow events send: on an event of any other kind
    [handle] creates no delivery, sends no message and leaves [sent] as
    it was. *)
Theorem only_link_flow_sends (e : pn_event_t) (s : state) :
  typed s ->
  pn_event_type e <> PN_LINK_FLOW ->
  exists b s',
    handle fuel e s = Returns b s' /\
    sent (app s') = sent (app s) /\
    deliveries (calls s') = deliveries (calls s) /\
    messages (calls s') = messages (calls s).
Proof.
  intros Ht Hty.
  destruct (handle_ok e s Ht)
    as (b & s' & Hrun & _ & _ & _ & _ & Hs & _ & _ & _ & new & Hc & Hd & Hmsg & _).
  assert (Hk : sends s e = 0%nat).
  { unfold sends. destruct (pn_event_type e); congruence. }
  rewrite Hk in Hs, Hd, Hmsg. simpl in Hd, Hmsg.
  exists b, s'. split; [exact Hrun | ]. split; [lia | ].
  rewrite Hc, deliveries_app, messages_app, Hd, Hmsg, !app_nil_r. auto.
Qed.

(** X4. On connection-init the credentials are attached only when a
    user name is configured: with a user name [handle] sets the user and
    then the password (NULL when none was given); without one it sets
    neither, so that a password given alone is never passed on.  In
    both cases it then sets the container id and opens the connection,
    changes nothing of the session and returns true. *)
Theorem connection_init_credentials (e : pn_event_t) (s : state) :
  pn_event_type e = PN_CONNECTION_INIT ->
  exists s',
    handle fuel e s = Returns true s' /\
    app s' = app s /\ exit_code s' = exit_code s /\
    calls s'
    = calls s
      ++ match username (app s) with
         | Some u => [pn_connection_set_user u;
                      pn_connection_set_password (password (app s))]
         | None => []
         end
      ++ [pn_connection_set_container (container_id (app s));
          pn_connection_open].
Proof.
  clear codec format enough_fuel.
  intros Hty. unfold handle. rewrite Hty.
  unfold bind at 1. unfold get_app at 1.
  destruct (username (app s)) as [u | ];
    (eexists; split; [reflexivity | ]); simpl;
    rewrite <- ?app_assoc; auto.
Qed.

(** X5. On connection-remote-open, when the address resolves, the
    address is resolved with the prefix the peer has just advertised,
    if it did, and with the prefix of the session otherwise; that
    prefix is the one the session keeps.  The session is opened first,
    then the sender is created, the address is set on its target, and
    the link is opened last.  The exit code and the counters are as
    they were. *)
Theorem remote_open_attaches (e : pn_event_t) (s : state) :
  pn_event_type e = PN_CONNECTION_REMOTE_OPEN ->
  resolution_fails s e = false ->
  let r := get_data_map_string_property (pn_connection_remote_properties e)
                                        TOPIC_PREFIX_KEY 255 in
  let prefix := if 0 <? fst r then snd r else amqp_topic_prefix (app s) in
  let topic := snd (amqp_destination_address PN_MAX_ADDR
                      (amqp_address (app s)) prefix) in
  exists s',
    handle fuel e s = Returns true s' /\
    amqp_topic_prefix (app s') = prefix /\
    calls s'
    = calls s
      ++ [pn_session_open; pn_sender "my_sender";
          printf ("setting amqp topic:'" ++ topic ++ "'" ++ nl)%string;
          pn_terminus_set_address topic; pn_link_open] /\
    exit_code s' = exit_code s /\
    sent (app s') = sent (app s) /\
    acknowledged (app s') = acknowledged (app s) /\
    message_count (app s') = message_count (app s).
Proof.
  clear codec format enough_fuel.
  intros Hty Hres r prefix topic. subst topic prefix r.
  unfold handle. rewrite Hty. unfold bind at 1. rewrite set_topic_prefix_spec.
  unfold resolution_fails in Hres.
  destruct (get_data_map_string_property _ _ _) as [rc v]. simpl fst; simpl snd.
  unfold bind at 1. unfold bind at 1. unfold bind at 1. unfold get_app at 1.
  destruct (0 <? rc); simpl;
    match goal with
    | |- context [amqp_destination_address ?x ?y ?z] =>
        destruct (amqp_destination_address x y z) as [rc' topic]
    end; simpl in Hres; rewrite Hres;
    (eexists; split; [reflexivity | ]); simpl;
    rewrite <- !app_assoc; auto 10.
Qed.

(** X6. A remote close of the connection, of the session or of the
    link, and a remote detach of the link, always make [handle] ask the
    connection to close, with or without a condition; the exit code
    becomes 1 only when the condition of the endpoint is set.  Nothing
    is sent, the counters are as they were, and [handle] returns
    true. *)
Theorem remote_close_closes (e : pn_event_t) (s : state) :
  typed s ->
  pn_event_type e = PN_CONNECTION_REMOTE_CLOSE \/
  pn_event_type e = PN_SESSION_REMOTE_CLOSE \/
  pn_event_type e = PN_LINK_REMOTE_CLOSE \/
  pn_event_type e = PN_LINK_REMOTE_DETACH ->
  exists s' c new,
    handle fuel e s = Returns true s' /\
    condition_of e = Some c /\
    exit_code s' = (if pn_condition_is_set c then 1 else exit_code s) /\
    calls s' = calls s ++ new /\
    close_requested new = true /\
    messages new = [] /\ deliveries new = [] /\
    sent (app s') = sent (app s) /\
    acknowledged (app s') = acknowledged (app s).
Proof.
  intros Ht Hty.
  destruct (handle_ok e s Ht)
    as (b & s' & Hrun & Hb & _ & _ & _ & Hs & Ha & _ & Hx & new & Hc & Hd & Hmsg & Hcl).
  unfold stops in Hb. unfold sends in Hs, Hd, Hmsg. unfold accepted in Ha.
  unfold marks_failure, condition_of in Hx. unfold closes in Hcl.
  destruct Hty as [Hty | [Hty | [Hty | Hty]]];
    rewrite Hty in *; simpl in Hb, Hs, Hd, Hmsg; subst b;
    exists s'; eexists; exists new;
    (split; [exact Hrun | ]);
    (split; [unfold condition_of; rewrite Hty; reflexivity | ]);
    (split; [exact Hx | ]);
    repeat match goal with |- _ /\ _ => split end; auto; lia.
Qed.

(** X7. The exit code is never reset.  Over any sequence of events, if
    it is 0 or 1 before it is 0 or 1 after, and if it is 1 before it is
    1 after.  It is 1 after as soon as one event of the sequence sets a
    failure (a condition that is set, an outcome other than accepted,
    an address that does not resolve), and it is as it was when no
    event does. *)
Theorem exit_code_never_reset (evs : list pn_event_t) (s : state) :
  typed s ->
  exists s',
    handle_all fuel evs s = Returns tt s' /\
    (exit_code s = 1 -> exit_code s' = 1) /\
    (exit_code s' = exit_code s \/ exit_code s' = 1) /\
    (along (fun _ s0 e => marks_failure s0 e = false) fuel [] evs s ->
     exit_code s' = exit_code s) /\
    (forall pre e post s1,
       evs = pre ++ e :: post ->
       handle_all fuel pre s = Returns tt s1 ->
       marks_failure s1 e = true ->
       exit_code s' = 1).
Proof.
  intros Ht.
  destruct (handle_all_ok evs s Ht) as (s' & Hrun & _ & _ & _ & _ & Hx & _).
  exists s'. split; [exact Hrun | ]. split; [exact Hx | ].
  split; [ | split].
  - clear Hx. revert s s' Ht Hrun.
    induction evs as [ | e evs IH]; intros s s' Ht Hrun.
    + injection Hrun as <-. now left.
    + simpl in Hrun. unfold bind in Hrun.
      destruct (handle_ok e s Ht) as (b & s1 & Hstep & _ & Ht1 & _ & _ & _ & _ & _ & Hx1 & _).
      rewrite Hstep in Hrun.
      destruct (IH _ _ Ht1 Hrun) as [Hsame | Hone]; [ | now right].
      rewrite Hsame, Hx1. destruct (marks_failure s e); auto.
  - clear Hx. generalize (@nil pn_event_t) as past. revert s s' Ht Hrun.
    induction evs as [ | e evs IH]; intros s s' Ht Hrun past Hal.
    + now injection Hrun as <-.
    + simpl in Hrun. unfold bind in Hrun. destruct Hal as (Hok & Hal).
      destruct (handle_ok e s Ht) as (b & s1 & Hstep & _ & Ht1 & _ & _ & _ & _ & _ & Hx1 & _).
      rewrite Hstep in Hrun, Hal. rewrite Hok in Hx1.
      rewrite (IH _ _ Ht1 Hrun _ Hal). exact Hx1.
  - intros pre e post s1 Hsplit Hpre Hfail. subst evs.
    rewrite handle_all_app in Hrun. unfold bind in Hrun. rewrite Hpre in Hrun.
    simpl in Hrun. unfold bind in Hrun.
    destruct (handle_all_ok pre s Ht) as (s1' & Hpre' & Ht1 & _).
    rewrite Hpre in Hpre'. injection Hpre' as <-.
    destruct (handle_ok e s1 Ht1) as (b & s2 & Hstep & _ & Ht2 & _ & _ & _ & _ & _ & Hx2 & _).
    rewrite Hstep in Hrun. rewrite Hfail in Hx2.
    destruct (handle_all_ok post s2 Ht2) as (s2' & Hpost & _ & _ & _ & _ & Hx' & _).
    rewrite Hrun in Hpost. injection Hpost as <-. auto.
Qed.

(** X8. [acknowledged] counts the delivery events whose remote state
    is accepted, whatever delivery they are for: over any sequence of
    events it grows by the number of such events, as long as an [int]
    holds the sum. *)
Theorem acknowledged_counts_accepted (evs : list pn_event_t) (s : state) :
  typed s ->
  - 2 ^ 31 <= acknowledged (app s) ->
  acknowledged (app s) + Z.of_nat (List.length (filter accepted evs)) <= INT_MAX ->
  exists s',
    handle_all fuel evs s = Returns tt s' /\
    acknowledged (app s')
    = acknowledged (app s) + Z.of_nat (List.length (filter accepted evs)).
Proof.
  revert s. induction evs as [ | e evs IH]; intros s Ht Hlow Hhigh.
  - exists s. simpl. split; [reflexivity | lia].
  - destruct (handle_ok e s Ht)
      as (b & s1 & Hstep & _ & Ht1 & _ & _ & _ & Ha & _).
    simpl in Hhigh. simpl filter.
    destruct (accepted e) eqn:Hacc; simpl List.length in *.
    + rewrite int_incr_eq in Ha by (unfold INT_MAX in *; lia).
      destruct (IH s1 Ht1) as (s' & Hrun & Ha'); [lia | lia | ].
      exists s'. simpl. unfold bind. rewrite Hstep. split; [exact Hrun | lia].
    + destruct (IH s1 Ht1) as (s' & Hrun & Ha'); [lia | lia | ].
      exists s'. simpl. unfold bind. rewrite Hstep. split; [exact Hrun | lia].
Qed.

(** X9. The encode buffer is reused: when it is allocated and the
    codec encodes the message for the current [sent] in it,
    [encode_message] returns that encoding and leaves the state exactly
    as it was: nothing is allocated, nothing is printed. *)
Theorem encode_message_reuses_buffer (s : state) (n : Z) :
  start (message_buffer (app s)) = true ->
  pn_message_encode (message_for (sent (app s))) (size (message_buffer (app s)))
  = (0, n) ->
  encode_message fuel s
  = Returns {| bytes_size := n; bytes_of := message_for (sent (app s)) |} s.
Proof.
  clear codec format.
  intros Hstart Henc. unfold encode_message, bind, get_app.
  replace (Z.of_nat (String.length (sprintf_sequence (sent (app s)))) <? 0)
    with false by (symmetry; apply Z.ltb_ge; lia).
  fold (message_for (sent (app s))). rewrite Hstart. cbn [negb]. cbv iota beta.
  destruct fuel as [ | n0]; [lia | ].
  simpl encode_loop. unfold bind, get_app, ret. cbv iota beta.
  rewrite Henc. reflexivity.
Qed.

Lemma encode_loop_tight (n : nat) (m : pn_message_t) :
  forall (s : state) (r : Z * Z) (s' : state),
    0 <= size (message_buffer (app s)) ->
    encode_loop n m s = Returns r s' ->
    s' = s \/ size (message_buffer (app s')) < 2 * wire_size m.
Proof.
  induction n as [ | n IH]; intros s r s' Hpos Hrun; [discriminate | ].
  simpl in Hrun. unfold bind, get_app in Hrun.
  destruct (codec m) as [Hw Hc].
  destruct (Hc (size (message_buffer (app s)))) as [Hov Hok].
  destruct (Z_lt_le_dec (size (message_buffer (app s))) (wire_size m)) as [Hlt | Hle].
  - specialize (Hov Hlt).
    destruct (pn_message_encode m (size (message_buffer (app s)))) as [status sz].
    simpl in Hov. subst status. simpl in Hrun.
    assert (Hd : size_double (size (message_buffer (app s)))
                 = size (message_buffer (app s)) * 2)
      by (apply size_double_small; lia).
    apply IH in Hrun; [ | simpl; rewrite Hd; lia].
    assert (Hdouble : size_double (size (message_buffer (app s))) < 2 * wire_size m)
      by (rewrite Hd; lia).
    right. destruct Hrun as [-> | Hsmall]; [exact Hdouble | exact Hsmall].
  - rewrite (Hok Hle) in Hrun. simpl in Hrun. injection Hrun as _ <-. now left.
Qed.

(** X10. [encode_message] grows the buffer no more than the message
    needs: after a call the capacity is the one found before it (128 on
    the first call), or it is less than twice the encoded size of the
    message. *)
Theorem encode_message_grows_no_more (s : state) :
  buffer_ok (message_buffer (app s)) ->
  exists b s',
    encode_message fuel s = Returns b s' /\
    (size (message_buffer (app s'))
     = (if start (message_buffer (app s))
        then size (message_buffer (app s)) else 128) \/
     size (message_buffer (app s'))
     < 2 * wire_size (message_for (sent (app s)))).
Proof.
  intros Hbuf.
  destruct (encode_message_ok s Hbuf) as (s' & k & Hrun & _).
  eexists. exists s'. split; [exact Hrun | ].
  unfold encode_message, bind, get_app in Hrun.
  replace (Z.of_nat (String.length (sprintf_sequence (sent (app s)))) <? 0)
    with false in Hrun by (symmetry; apply Z.ltb_ge; lia).
  fold (message_for (sent (app s))) in Hrun.
  destruct (start (message_buffer (app s))) eqn:Hstart;
    cbn [negb] in Hrun; cbv beta iota in Hrun.
  - unfold ret at 1 in Hrun.
    destruct (encode_loop fuel (message_for (sent (app s))) s)
      as [r s1 | | ] eqn:Hloop; try discriminate.
    apply encode_loop_tight in Hloop; [ | pose proof (Hbuf Hstart); lia].
    destruct r as [status sz]. destruct (negb (status =? 0)); try discriminate.
    injection Hrun as _ <-. destruct Hloop as [-> | Hsmall]; auto.
  - unfold put_app at 1 in Hrun.
    match type of Hrun with context [encode_loop fuel ?m ?s0] =>
      destruct (encode_loop fuel m s0) as [r s1 | | ] eqn:Hloop; try discriminate
    end.
    apply encode_loop_tight in Hloop; [ | simpl; lia].
    destruct r as [status sz]. destruct (negb (status =? 0)); try discriminate.
    injection Hrun as _ <-. destruct Hloop as [-> | Hsmall]; auto.
Qed.

(** X11. A failure of the codec that is not an overflow ends the
    process from inside the handler.  On a link-flow event with credit,
    when [pn_message_encode] answers the message for [sent + 1] with a
    status other than 0 and [PN_OVERFLOW], [sent] has been incremented
    and the delivery created, the error is printed, nothing is sent and
    the process exits with status 1 whatever [exit_code] holds; no later
    event is handled. *)
Theorem codec_error_exits
    (e : pn_event_t) (s : state) (rest : list pn_event_t) (status sz : Z) :
  pn_event_type e = PN_LINK_FLOW ->
  0 < pn_link_credit e ->
  - 2 ^ 31 <= sent (app s) < message_count (app s) ->
  message_count (app s) <= INT_MAX ->
  pn_message_encode (message_for (sent (app s) + 1))
    (if start (message_buffer (app s))
     then size (message_buffer (app s)) else 128)
  = (status, sz) ->
  status <> 0 -> status <> PN_OVERFLOW ->
  exists s',
    handle fuel e s = Exits 1 s' /\
    run_batch fuel (e :: rest) s = Exits 1 s' /\
    sent (app s') = sent (app s) + 1 /\
    calls s'
    = calls s
      ++ [pn_delivery (pn_dtag (sent (app s) + 1));
          fprintf_stderr
            ("error encoding message: "
             ++ pn_error_text (message_for (sent (app s) + 1)) ++ nl)%string] /\
    messages (calls s') = messages (calls s).
Proof.
  clear codec format.
  intros Hty Hcredit Hsent Hcount Henc Hnz Hnov.
  assert (Hincr : int_incr (sent (app s)) = sent (app s) + 1)
    by (apply int_incr_eq; lia).
  apply Z.eqb_neq in Hnz, Hnov.
  assert (Hrun : exists s',
             handle fuel e s = Exits 1 s' /\
             sent (app s') = sent (app s) + 1 /\
             calls s'
             = calls s
               ++ [pn_delivery (pn_dtag (sent (app s) + 1));
                   fprintf_stderr
                     ("error encoding message: "
                      ++ pn_error_text (message_for (sent (app s) + 1)) ++ nl)%string]).
  { unfold handle. rewrite Hty. unfold bind at 1.
    destruct (Z.to_nat (pn_link_credit e)) as [ | credit] eqn:Hn; [lia | ].
    simpl send_loop. unfold bind at 1. unfold get_app at 1.
    replace (sent (app s) <? message_count (app s)) with true
      by (symmetry; apply Z.ltb_lt; lia).
    unfold bind at 1. unfold put_app at 1.
    unfold bind at 1. unfold get_app at 1.
    unfold bind at 1. unfold do_call at 1.
    unfold bind at 1. unfold encode_message.
    unfold bind at 1. unfold get_app at 1.
    cbn [app sent set_sent message_buffer calls exit_code].
    rewrite Hincr.
    replace (Z.of_nat (String.length (sprintf_sequence (sent (app s) + 1))) <? 0)
      with false by (symmetry; apply Z.ltb_ge; lia).
    fold (message_for (sent (app s) + 1)).
    destruct fuel as [ | n0]; [lia | ].
    destruct (start (message_buffer (app s))) eqn:Hstart;
      cbn [negb]; cbv beta iota;
      unfold bind at 1;
      [unfold ret at 1 | unfold put_app at 1]; cbv beta iota;
      unfold bind at 1; simpl encode_loop;
      unfold bind at 1; unfold get_app at 1;
      cbn [app sent set_sent set_message_buffer message_buffer size start
           calls exit_code];
      rewrite Henc, Hnov; unfold ret at 1; cbv beta iota; rewrite Hnz;
      cbn [negb]; unfold bind at 1; unfold do_call at 1; unfold exit;
      (eexists; split; [reflexivity | ]);
      cbn [app sent set_sent set_message_buffer calls];
      rewrite <- app_assoc; auto. }
  destruct Hrun as (s' & Hrun & Hs & Hc).
  exists s'. split; [exact Hrun | ].
  split; [simpl; unfold bind; now rewrite Hrun | ].
  split; [exact Hs | ]. split; [exact Hc | ].
  rewrite Hc, messages_app. simpl. apply app_nil_r.
Qed.

(** X12. What [check_condition] prints for a condition that is set:
    the line with the event type, the name and the description; then
    one line of info when info is attached and is not null, and no such
    line otherwise; the request to close comes after them.  The data of
    the session is not touched. *)
Theorem check_condition_lines (e : pn_event_t) (cond : pn_condition_t) (s : state) :
  pn_condition_is_set cond = true ->
  exists s' lines,
    check_condition fuel e cond s = Returns tt s' /\
    app s' = app s /\
    calls s'
    = calls s
      ++ [fprintf_stderr
            (pn_event_type_name (pn_event_type e) ++ ": "
             ++ pn_condition_get_name cond ++ ": "
             ++ pn_condition_get_description cond ++ nl)%string]
      ++ lines ++ [pn_connection_close] /\
    match pn_condition_info cond with
    | Some info =>
        if pn_data_is_null info then lines = []
        else exists buf,
               lines = [fprintf_stderr ("Err info: " ++ buf ++ nl)%string]
    | None => lines = []
    end.
Proof.
  intros Hset. unfold check_condition. rewrite Hset.
  unfold bind at 1. unfold do_call at 1.
  destruct (pn_condition_info cond) as [info | ].
  - destruct (pn_data_is_null info); cbn [negb]; cbv iota.
    + eexists. exists []. split; [reflexivity | ]. simpl.
      rewrite <- app_assoc. auto.
    + unfold bind at 1. unfold bind at 1.
      match goal with |- context [format_loop fuel info 128 ?s0] =>
        destruct (format_loop_ok 63 fuel info 128 s0) as (buf & Hrun);
          [lia | lia | destruct (format info) as [Hw _];
                       change (Z.of_nat 63) with 63; lia | ]
      end.
      rewrite Hrun.
      eexists. exists [fprintf_stderr ("Err info: " ++ buf ++ nl)%string].
      split; [reflexivity | ]. simpl.
      rewrite <- !app_assoc. split; [reflexivity | ].
      split; [reflexivity | ]. now exists buf.
  - eexists. exists []. split; [reflexivity | ]. simpl.
    rewrite <- app_assoc. auto.
Qed.

Lemma message_for_inj (x y : Z) : message_for x = message_for y -> x = y.
Proof.
  clear codec format enough_fuel.
  intros H. injection H as H.
  pose proof (sequence_number_sprintf x) as Hx.
  unfold sprintf_sequence in Hx. rewrite H in Hx.
  fold (sprintf_sequence y) in Hx. rewrite sequence_number_sprintf in Hx.
  now injection Hx.
Qed.

(** X13. The sent counter makes a unique delivery tag: in any run from
    the start the tags of the deliveries created are pairwise
    different, each is four bytes, and the messages sent are pairwise
    different too. *)
Theorem sends_are_distinct (a : app_data_t) (evs : list pn_event_t) :
  initial a ->
  exists s,
    handle_all fuel evs (init_state a) = Returns tt s /\
    NoDup (deliveries (calls s)) /\
    NoDup (messages (calls s)) /\
    Forall (fun tag => List.length tag = 4%nat /\
                       Forall (fun b => 0 <= b < 256) tag)
           (deliveries (calls s)).
Proof.
  intros Hinit.
  pose proof (tracked_init a Hinit) as (Ht & _).
  destruct Hinit as (Hs0 & Ha0 & Hb0 & Hm0).
  destruct (handle_all_ok evs (init_state a) Ht)
    as (s & Hrun & Ht' & Hm & Hs & _ & _ & new & Hc & Hd & Hmsg).
  simpl in Hm, Hs, Hc, Hd, Hmsg. rewrite Hs0 in Hs, Hd, Hmsg.
  rewrite Z.sub_0_r in Hd, Hmsg. simpl in Hd, Hmsg, Hs.
  pose proof (credit_offered_nonneg evs) as Hpos.
  exists s. split; [exact Hrun | ]. rewrite Hc, Hd, Hmsg.
  split; [apply pn_dtag_NoDup; lia | ].
  split.
  - apply NoDup_map_NoDup_ForallPairs; [ | apply Zseq_NoDup].
    intros x y _ _. apply message_for_inj.
  - apply Forall_forall. intros tag Hin.
    apply in_map_iff in Hin. destruct Hin as (n & <- & _).
    split; [reflexivity | ].
    unfold pn_dtag. repeat constructor; apply Z.mod_pos_bound; reflexivity.
Qed.

Lemma run_batch_returns (evs : list pn_event_t) : forall (s : state),
  typed s -> exit_code s = 0 \/ exit_code s = 1 ->
  exists b s',
    run_batch fuel evs s = Returns b s' /\
    typed s' /\ (exit_code s' = 0 \/ exit_code s' = 1).
Proof.
  induction evs as [ | e evs IH]; intros s Ht Hx.
  - exists true, s. auto.
  - destruct (handle_ok e s Ht)
      as (b & s1 & Hstep & _ & Ht1 & _ & _ & _ & _ & _ & Hx1 & _).
    assert (Hx1' : exit_code s1 = 0 \/ exit_code s1 = 1)
      by (rewrite Hx1; destruct (marks_failure s e); auto).
    simpl. unfold bind. rewrite Hstep. destruct b.
    + apply IH; assumption.
    + exists false, s1. auto.
Qed.

Lemma run_returns (batches : list (list pn_event_t)) : forall (s : state),
  typed s -> exit_code s = 0 \/ exit_code s = 1 ->
  exists b s',
    run fuel batches s = Returns b s' /\
    typed s' /\ (exit_code s' = 0 \/ exit_code s' = 1).
Proof.
  induction batches as [ | events batches IH]; intros s Ht Hx.
  - exists true, s. auto.
  - destruct (run_batch_returns events s Ht Hx) as (b & s1 & Hrun & Ht1 & Hx1).
    simpl. unfold bind. rewrite Hrun. destruct b.
    + apply IH; assumption.
    + exists false, s1. auto.
Qed.

(** X14. The topic prefix is changed by connection-remote-open events
    only: every other event leaves the prefix of the session as it
    was. *)
Theorem prefix_changes_only_at_open (e : pn_event_t) (s : state) :
  typed s ->
  pn_event_type e <> PN_CONNECTION_REMOTE_OPEN ->
  exists b s',
    handle fuel e s = Returns b s' /\
    amqp_topic_prefix (app s') = amqp_topic_prefix (app s).
Proof.
  intros Ht Hty. unfold handle.
  destruct (pn_event_type e) eqn:Hkind; try congruence.
  - unfold bind at 1. unfold get_app at 1.
    destruct (username (app s)); eexists; eexists; split; reflexivity.
  - destruct Ht as (Hbuf & Hsent & Hcount).
    destruct (send_loop_ok (Z.to_nat (pn_link_credit e)) s Hbuf Hsent Hcount)
      as (s' & Hrun & _ & _ & _ & _ & _ & Hp & _).
    unfold bind. rewrite Hrun. exists true, s'. auto.
  - destruct (pn_delivery_remote_state (pn_event_delivery e) =? PN_ACCEPTED).
    + unfold bind at 1. unfold get_app at 1.
      unfold bind at 1. unfold put_app at 1.
      unfold bind at 1. unfold get_app at 1. simpl.
      destruct (int_incr (acknowledged (app s)) =? message_count (app s));
        eexists; eexists; split; reflexivity.
    + unfold bind at 1. unfold do_call at 1. unfold bind at 1.
      match goal with |- context [check_condition fuel e ?c ?s0] =>
        destruct (check_condition_calls e c s0) as (s1 & new & Hrun & Happ & _)
      end.
      rewrite Hrun. eexists; eexists; split; [reflexivity | ].
      simpl. now rewrite Happ.
  - destruct (check_condition_calls e (pn_transport_condition e) s)
      as (s1 & new & Hrun & Happ & _).
    unfold bind. rewrite Hrun. eexists; eexists; split; [reflexivity | ].
    now rewrite Happ.
  - destruct (check_condition_calls e (pn_connection_remote_condition e) s)
      as (s1 & new & Hrun & Happ & _).
    unfold bind. rewrite Hrun. eexists; eexists; split; [reflexivity | ].
    simpl. now rewrite Happ.
  - destruct (check_condition_calls e (pn_session_remote_condition e) s)
      as (s1 & new & Hrun & Happ & _).
    unfold bind. rewrite Hrun. eexists; eexists; split; [reflexivity | ].
    simpl. now rewrite Happ.
  - destruct (check_condition_calls e (pn_link_remote_condition e) s)
      as (s1 & new & Hrun & Happ & _).
    unfold bind. rewrite Hrun. eexists; eexists; split; [reflexivity | ].
    simpl. now rewrite Happ.
  - destruct (check_condition_calls e (pn_link_remote_condition e) s)
      as (s1 & new & Hrun & Happ & _).
    unfold bind. rewrite Hrun. eexists; eexists; split; [reflexivity | ].
    simpl. now rewrite Happ.
  - exists false, s. auto.
  - exists true, s. auto.
Qed.

(** X15. Sending follows the credit: over any sequence of events
    [sent] grows by the credit the link-flow events offer, or by what
    is left to send when that is less, and by nothing when [sent] is
    not below the message count. *)
Theorem sent_follows_credit (evs : list pn_event_t) (s : state) :
  typed s ->
  exists s',
    handle_all fuel evs s = Returns tt s' /\
    sent (app s')
    = sent (app s)
      + Z.min (credit_offered evs)
              (Z.max 0 (message_count (app s) - sent (app s))) /\
    List.length (messages (calls s'))
    = (List.length (messages (calls s))
       + Z.to_nat (sent (app s') - sent (app s)))%nat.
Proof.
  intros Ht.
  destruct (handle_all_ok evs s Ht)
    as (s' & Hrun & _ & _ & Hs & _ & _ & new & Hc & _ & Hmsg).
  exists s'. split; [exact Hrun | ]. split; [exact Hs | ].
  now rewrite Hc, messages_app, length_app, Hmsg, length_map, Zseq_length.
Qed.

End Verification.

(** ** The text of the body *)

Lemma to_lu_tenfold_plus (p : positive) (r : N) :
  (r < 10)%N ->
  nb_digits (Unsigned.to_lu (10 * N.pos p + r))
  = S (nb_digits (Unsigned.to_lu (N.pos p))).
Proof.
  intros Hr.
  pose proof (Unsigned.to_ldec_tenfold p) as H0.
  set (l := Unsigned.to_lu (N.pos p)) in *.
  assert (H1 : Unsigned.to_lu (10 * N.pos p + 1) = D1 l).
  { replace (10 * N.pos p + 1)%N with (N.succ (10 * N.pos p)) by lia.
    now rewrite Unsigned.to_lu_succ, H0. }
  assert (H2 : Unsigned.to_lu (10 * N.pos p + 2) = D2 l).
  { replace (10 * N.pos p + 2)%N with (N.succ (10 * N.pos p + 1)) by lia.
    now rewrite Unsigned.to_lu_succ, H1. }
  assert (H3 : Unsigned.to_lu (10 * N.pos p + 3) = D3 l).
  { replace (10 * N.pos p + 3)%N with (N.succ (10 * N.pos p + 2)) by lia.
    now rewrite Unsigned.to_lu_succ, H2. }
  assert (H4 : Unsigned.to_lu (10 * N.pos p + 4) = D4 l).
  { replace (10 * N.pos p + 4)%N with (N.succ (10 * N.pos p + 3)) by lia.
    now rewrite Unsigned.to_lu_succ, H3. }
  assert (H5 : Unsigned.to_lu (10 * N.pos p + 5) = D5 l).
  { replace (10 * N.pos p + 5)%N with (N.succ (10 * N.pos p + 4)) by lia.
    now rewrite Unsigned.to_lu_succ, H4. }
  assert (H6 : Unsigned.to_lu (10 * N.pos p + 6) = D6 l).
  { replace (10 * N.pos p + 6)%N with (N.succ (10 * N.pos p + 5)) by lia.
    now rewrite Unsigned.to_lu_succ, H5. }
  assert (H7 : Unsigned.to_lu (10 * N.pos p + 7) = D7 l).
  { replace (10 * N.pos p + 7)%N with (N.succ (10 * N.pos p + 6)) by lia.
    now rewrite Unsigned.to_lu_succ, H6. }
  assert (H8 : Unsigned.to_lu (10 * N.pos p + 8) = D8 l).
  { replace (10 * N.pos p + 8)%N with (N.succ (10 * N.pos p + 7)) by lia.
    now rewrite Unsigned.to_lu_succ, H7. }
  assert (H9 : Unsigned.to_lu (10 * N.pos p + 9) = D9 l).
  { replace (10 * N.pos p + 9)%N with (N.succ (10 * N.pos p + 8)) by lia.
    now rewrite Unsigned.to_lu_succ, H8. }
  assert (Hcases : (r = 0 \/ r = 1 \/ r = 2 \/ r = 3 \/ r = 4 \/ r = 5 \/
                    r = 6 \/ r = 7 \/ r = 8 \/ r = 9)%N) by lia.
  destruct Hcases as [-> | [-> | [-> | [-> | [-> | [-> | [-> | [-> | [-> | ->]]]]]]]]];
    rewrite ?N.add_0_r, ?H0, ?H1, ?H2, ?H3, ?H4, ?H5, ?H6, ?H7, ?H8, ?H9;
    reflexivity.
Qed.

Lemma to_lu_digits (k : nat) : forall n : N,
  (0 < n < 10 ^ N.of_nat k)%N -> (nb_digits (Unsigned.to_lu n) <= k)%nat.
Proof.
  induction k as [ | k IH]; intros n Hn.
  - simpl in Hn. lia.
  - rewrite Nat2N.inj_succ, N.pow_succ_r' in Hn.
    pose proof (N.div_mod n 10 ltac:(lia)) as Hdiv.
    pose proof (N.mod_lt n 10 ltac:(lia)) as Hmod.
    destruct (n / 10)%N as [ | q] eqn:Hq.
    + rewrite N.mul_0_r, N.add_0_l in Hdiv. rewrite Hdiv.
      assert (Hcases : (n mod 10 = 1 \/ n mod 10 = 2 \/ n mod 10 = 3 \/
                        n mod 10 = 4 \/ n mod 10 = 5 \/ n mod 10 = 6 \/
                        n mod 10 = 7 \/ n mod 10 = 8 \/ n mod 10 = 9)%N) by lia.
      destruct Hcases as [-> | [-> | [-> | [-> | [-> | [-> | [-> | [-> | ->]]]]]]]];
        simpl; lia.
    + rewrite Hdiv, to_lu_tenfold_plus by exact Hmod.
      apply le_n_S, IH. clear IH Hq.
      generalize dependent (10 ^ N.of_nat k)%N. intros X HX.
      generalize dependent (n mod 10)%N. intros r Hr Hdiv. lia.
Qed.

Lemma string_of_uint_length (d : uint) :
  String.length (NilEmpty.string_of_uint d) = nb_digits d.
Proof. induction d; simpl; congruence. Qed.

Lemma to_uint_digits (p : positive) :
  (N.pos p < 10 ^ 10)%N -> (nb_digits (Pos.to_uint p) <= 10)%nat.
Proof.
  intros Hp. unfold Pos.to_uint. rewrite nb_digits_rev.
  apply (to_lu_digits 10 (N.pos p)). split; [reflexivity | exact Hp].
Qed.

Lemma decimal_length (n : Z) :
  int_range n -> (String.length (decimal n) <= 11)%nat.
Proof.
  unfold int_range, INT_MAX, decimal. intros Hn.
  destruct n as [ | p | p]; simpl.
  - lia.
  - pose proof (Unsigned.to_uint_nonnil p) as Hnil.
    unfold NilZero.string_of_uint.
    destruct (Pos.to_uint p) eqn:Hd; try congruence;
      rewrite <- Hd, string_of_uint_length;
      pose proof (to_uint_digits p ltac:(lia)); lia.
  - pose proof (Unsigned.to_uint_nonnil p) as Hnil.
    unfold NilZero.string_of_uint.
    destruct (Pos.to_uint p) eqn:Hd; try congruence;
      rewrite <- Hd, string_of_uint_length;
      pose proof (to_uint_digits p ltac:(lia)); lia.
Qed.

Lemma append_length (s1 s2 : string) :
  String.length (s1 ++ s2) = (String.length s1 + String.length s2)%nat.
Proof. induction s1; simpl; congruence. Qed.

(** X16. The buffer [encode_message] allocates for the body is large
    enough: for every value of [sent] that an [int] holds, the text
    [sprintf] writes and the NUL after it take no more than
    [sizeof("sequence_") + 12] bytes. *)
Theorem sprintf_sequence_fits (n : Z) :
  int_range n ->
  Z.of_nat (String.length (sprintf_sequence n)) + 1 <= slen.
Proof.
  intros Hn. unfold sprintf_sequence, slen. rewrite append_length.
  pose proof (decimal_length n Hn). simpl String.length. lia.
Qed.

(** ** The command line *)

Section CommandLineProperties.

Context {cli : CommandLine}.

Lemma usage_exits {A : Type} (s : state) :
  @usage A s
  = Exits 0 {| app := app s; exit_code := exit_code s;
               calls := calls s ++ map printf usage_lines |}.
Proof.
  unfold usage. simpl. unfold bind, do_call, exit. simpl.
  now rewrite <- !app_assoc.
Qed.

(** What the options leave as it was when [parse_options] returns. *)
Lemma parse_options_returns (opts : list getopt_t) : forall (s s' : state),
  (forall str, int_range (atoi str)) ->
  parse_options opts s = Returns tt s' ->
  calls s' = calls s /\ exit_code s' = exit_code s /\
  sent (app s') = sent (app s) /\
  acknowledged (app s') = acknowledged (app s) /\
  message_buffer (app s') = message_buffer (app s) /\
  amqp_topic_prefix (app s') = amqp_topic_prefix (app s) /\
  (0 <= message_count (app s) <= INT_MAX ->
   0 <= message_count (app s') <= INT_MAX).
Proof.
  induction opts as [ | o opts IH]; intros s s' Hatoi Hrun.
  - injection Hrun as <-. repeat match goal with |- _ /\ _ => split end; auto.
  - simpl in Hrun. unfold bind at 1 in Hrun.
    match type of Hrun with
    | match ?step s with _ => _ end = _ =>
        assert (Hstep : forall s1, step s = Returns tt s1 ->
                  calls s1 = calls s /\ exit_code s1 = exit_code s /\
                  sent (app s1) = sent (app s) /\
                  acknowledged (app s1) = acknowledged (app s) /\
                  message_buffer (app s1) = message_buffer (app s) /\
                  amqp_topic_prefix (app s1) = amqp_topic_prefix (app s) /\
                  (0 <= message_count (app s) <= INT_MAX ->
                   0 <= message_count (app s1) <= INT_MAX));
          [ | destruct (step s) as [[] s1 | | ] eqn:Hs1; try discriminate;
              destruct (Hstep s1 eq_refl) as (H1 & H2 & H3 & H4 & H5 & H6 & H7);
              destruct (IH s1 s' Hatoi Hrun) as (G1 & G2 & G3 & G4 & G5 & G6 & G7);
              repeat match goal with |- _ /\ _ => split end; try congruence; intros; apply G7, H7; assumption ]
    end.
    intros s1.
    destruct (opt o =? "h")%char; [rewrite usage_exits; discriminate | ].
    destruct (opt o =? "c")%char.
    { unfold bind, get_app, put_app. cbn [app message_count set_message_count].
      destruct (atoi (optarg o) <? 0) eqn:Hneg;
        [rewrite usage_exits; discriminate | ].
      intros [= <-]. simpl. apply Z.ltb_ge in Hneg.
      pose proof (Hatoi (optarg o)) as Hr. unfold int_range in Hr.
      repeat match goal with |- _ /\ _ => split end; auto; lia. }
    destruct (opt o =? "a")%char;
      [intros [= <-]; simpl; repeat match goal with |- _ /\ _ => split end; auto | ].
    destruct (opt o =? "i")%char.
    { destruct (util_container_id PN_MAX_ADDR (optarg o) sizeof_char_ptr) as [rc id].
      destruct (rc <? 0); [discriminate | ].
      intros [= <-]. simpl. repeat match goal with |- _ /\ _ => split end; auto. }
    destruct (opt o =? "t")%char;
      [intros [= <-]; simpl; repeat match goal with |- _ /\ _ => split end; auto | ].
    destruct (opt o =? "p")%char;
      [intros [= <-]; simpl; repeat match goal with |- _ /\ _ => split end; auto | ].
    destruct (opt o =? "P")%char;
      [intros [= <-]; simpl; repeat match goal with |- _ /\ _ => split end; auto | ].
    destruct (opt o =? "u")%char;
      [intros [= <-]; simpl; repeat match goal with |- _ /\ _ => split end; auto | ].
    rewrite usage_exits. discriminate.
Qed.

Lemma parse_args_returns
    (argv0 : string) (opts : list getopt_t) (s s' : state) :
  (forall str, int_range (atoi str)) ->
  parse_args argv0 opts s = Returns tt s' ->
  0 <= message_count (app s') <= INT_MAX /\
  amqp_topic_prefix (app s') = "topic://"%string /\
  sent (app s') = sent (app s) /\
  acknowledged (app s') = acknowledged (app s) /\
  message_buffer (app s') = message_buffer (app s) /\
  exit_code s' = exit_code s /\ calls s' = calls s /\
  (s = start_state -> s' = init_state (app s') /\ initial (app s')).
Proof.
  intros Hatoi Hrun. unfold parse_args in Hrun.
  destruct (util_container_id PN_MAX_ADDR argv0 sizeof_char_ptr) as [rc id].
  destruct (rc <? 0); [discriminate | ].
  unfold bind at 1 in Hrun. unfold get_app at 1 in Hrun.
  unfold bind at 1 in Hrun. unfold put_app at 1 in Hrun.
  apply (parse_options_returns _ _ _ Hatoi) in Hrun.
  simpl in Hrun. destruct Hrun as (H1 & H2 & H3 & H4 & H5 & H6 & H7).
  assert (Hcount : 0 <= message_count (app s') <= INT_MAX)
    by (apply H7; unfold INT_MAX; lia).
  repeat match goal with |- _ /\ _ => split end; auto; try apply Hcount.
  intros ->. simpl in *. split.
  - destruct s' as [a x c]. simpl in *. now subst.
  - unfold initial. rewrite H3, H4, H5. simpl. auto.
Qed.

(** X17. When [parse_args] returns, the session is fit for the loop:
    the message count is between 0 and [INT_MAX] (a negative count
    never gets through), the topic prefix is the default one, and the
    counters, the buffer, the exit code and the log are as [main] left
    them.  From the zeroed session of [main], it is a state the
    producer starts from. *)
Theorem parse_args_leaves_initial
    (argv0 : string) (opts : list getopt_t) (s s' : state) :
  (forall str, int_range (atoi str)) ->
  parse_args argv0 opts s = Returns tt s' ->
  0 <= message_count (app s') <= INT_MAX /\
  amqp_topic_prefix (app s') = "topic://"%string /\
  sent (app s') = sent (app s) /\
  acknowledged (app s') = acknowledged (app s) /\
  message_buffer (app s') = message_buffer (app s) /\
  exit_code s' = exit_code s /\ calls s' = calls s /\
  (s = start_state -> s' = init_state (app s') /\ initial (app s')).
Proof. apply parse_args_returns. Qed.

Lemma parse_options_app (l1 l2 : list getopt_t) (s : state) :
  parse_options (l1 ++ l2) s = (parse_options l1 ;; parse_options l2) s.
Proof.
  revert s. induction l1 as [ | o l1 IH]; intros s; simpl.
  - reflexivity.
  - unfold bind.
    match goal with |- match ?step s with _ => _ end = _ =>
      destruct (step s) as [[] s1 | | ]; auto
    end.
Qed.

Lemma good_option_returns (o : getopt_t) (s : state) :
  asks_usage o = false -> bad_container_id o = false ->
  exists s1,
    parse_options [o] s = Returns tt s1 /\
    calls s1 = calls s /\ exit_code s1 = exit_code s.
Proof.
  unfold asks_usage, bad_container_id. intros Hgood Hid.
  simpl. unfold bind at 1.
  destruct (opt o =? "h")%char; [discriminate | ].
  destruct (opt o =? "c")%char.
  { unfold bind, get_app, put_app. cbn [app message_count set_message_count].
    rewrite Hgood. eexists. split; [reflexivity | ]. auto. }
  simpl in Hgood. apply negb_false_iff in Hgood.
  destruct (opt o =? "a")%char; [eexists; split; [reflexivity | auto] | ].
  destruct (opt o =? "i")%char.
  { simpl in Hid.
    destruct (util_container_id PN_MAX_ADDR (optarg o) sizeof_char_ptr) as [rc id].
    simpl in Hid. rewrite Hid. eexists. split; [reflexivity | auto]. }
  destruct (opt o =? "t")%char; [eexists; split; [reflexivity | auto] | ].
  destruct (opt o =? "p")%char; [eexists; split; [reflexivity | auto] | ].
  destruct (opt o =? "P")%char; [eexists; split; [reflexivity | auto] | ].
  destruct (opt o =? "u")%char; [eexists; split; [reflexivity | auto] | ].
  discriminate.
Qed.

Lemma good_options_return (pre : list getopt_t) : forall (s : state),
  Forall (fun o => asks_usage o = false /\ bad_container_id o = false) pre ->
  exists s1,
    parse_options pre s = Returns tt s1 /\
    calls s1 = calls s /\ exit_code s1 = exit_code s.
Proof.
  induction pre as [ | o pre IH]; intros s Hgood.
  - exists s. auto.
  - inversion Hgood as [ | o' pre' (Hu & Hi) Hrest]; subst.
    destruct (good_option_returns o s Hu Hi) as (s1 & Hrun1 & Hc1 & Hx1).
    destruct (IH s1 Hrest) as (s2 & Hrun2 & Hc2 & Hx2).
    exists s2. change (o :: pre) with ([o] ++ pre).
    rewrite parse_options_app. unfold bind. rewrite Hrun1.
    split; [exact Hrun2 | ]. split; congruence.
Qed.

(** X18. The first option that is [-h], is not known to [getopt], or
    is a count below 0 ends the process through [usage]: the nine lines
    of usage are printed and the exit status is 0, also for the invalid
    input; the options after it are not looked at, and nothing else is
    printed. *)
Theorem parse_args_usage_exit
    (argv0 : string) (pre post : list getopt_t) (o : getopt_t) (s : state) :
  0 <= fst (util_container_id PN_MAX_ADDR argv0 sizeof_char_ptr) ->
  Forall (fun o' => asks_usage o' = false /\ bad_container_id o' = false) pre ->
  asks_usage o = true ->
  exists s',
    parse_args argv0 (pre ++ o :: post) s = Exits 0 s' /\
    calls s' = calls s ++ map printf usage_lines /\
    List.length usage_lines = 9%nat /\
    exit_code s' = exit_code s.
Proof.
  intros Hid Hgood Hbad. unfold parse_args.
  destruct (util_container_id PN_MAX_ADDR argv0 sizeof_char_ptr) as [rc id].
  simpl in Hid. replace (rc <? 0) with false by (symmetry; apply Z.ltb_ge; lia).
  unfold bind at 1. unfold get_app at 1.
  unfold bind at 1. unfold put_app at 1.
  rewrite parse_options_app. unfold bind at 1.
  match goal with |- context [parse_options pre ?s0] =>
    destruct (good_options_return pre s0 Hgood) as (s1 & Hrun1 & Hc1 & Hx1)
  end.
  rewrite Hrun1. simpl in Hc1, Hx1.
  simpl parse_options. unfold bind at 1.
  unfold asks_usage in Hbad.
  assert (Hexit : forall k : M unit,
            (if (opt o =? "h")%char then usage
             else if (opt o =? "c")%char
                  then a <- get_app ;;
                       put_app (set_message_count a (atoi (optarg o))) ;;
                       a0 <- get_app ;;
                       (if message_count a0 <? 0 then usage else ret tt)
                  else k) s1 = (if (opt o =? "h")%char then usage
                                else if (opt o =? "c")%char then usage
                                     else k)
                                 (if (opt o =? "h")%char then s1
                                  else if (opt o =? "c")%char
                                       then {| app := set_message_count (app s1) (atoi (optarg o));
                                               exit_code := exit_code s1; calls := calls s1 |}
                                       else s1)).
  { intros k. destruct (opt o =? "h")%char; [reflexivity | ].
    destruct (opt o =? "c")%char; [ | reflexivity].
    unfold bind, get_app, put_app. cbn [app message_count set_message_count].
    now rewrite Hbad. }
  rewrite Hexit. clear Hexit.
  destruct (opt o =? "h")%char;
    [rewrite usage_exits; eexists; split; [reflexivity | ]; simpl;
     rewrite Hc1, Hx1; auto | ].
  destruct (opt o =? "c")%char;
    [rewrite usage_exits; eexists; split; [reflexivity | ]; simpl;
     rewrite Hc1, Hx1; auto | ].
  simpl in Hbad. apply negb_true_iff in Hbad.
  repeat (apply orb_false_elim in Hbad;
          let H := fresh "H" in destruct Hbad as [H Hbad]; rewrite H).
  rewrite usage_exits. eexists. split; [reflexivity | ]. simpl.
  rewrite Hc1, Hx1. auto.
Qed.

(** X19. A container id that cannot be formatted ends the process with
    status 1 and one line on stderr naming its source: at once when the
    source is [argv[0]], before any option is looked at and with the
    session untouched; and at a [-i] option, when the options before it
    are good, with the options after it not looked at. *)
Theorem container_id_failure_exits
    (argv0 : string) (pre post : list getopt_t) (o : getopt_t) (s : state) :
  (fst (util_container_id PN_MAX_ADDR argv0 sizeof_char_ptr) < 0 ->
   parse_args argv0 (pre ++ o :: post) s
   = Exits 1 {| app := app s; exit_code := exit_code s;
                calls := calls s
                  ++ [fprintf_stderr
                        ("Unable to format container id from source: "
                         ++ argv0)%string] |}) /\
  (0 <= fst (util_container_id PN_MAX_ADDR argv0 sizeof_char_ptr) ->
   Forall (fun o' => asks_usage o' = false /\ bad_container_id o' = false) pre ->
   asks_usage o = false -> bad_container_id o = true ->
   exists s',
     parse_args argv0 (pre ++ o :: post) s = Exits 1 s' /\
     calls s'
     = calls s
       ++ [fprintf_stderr
             ("Unable to format container id from source: "
              ++ optarg o)%string] /\
     exit_code s' = exit_code s).
Proof.
  split.
  - intros Hid. unfold parse_args.
    destruct (util_container_id PN_MAX_ADDR argv0 sizeof_char_ptr) as [rc id].
    simpl in Hid. replace (rc <? 0) with true by (symmetry; apply Z.ltb_lt; lia).
    reflexivity.
  - intros Hid Hgood Hu Hbad. unfold parse_args.
    destruct (util_container_id PN_MAX_ADDR argv0 sizeof_char_ptr) as [rc id].
    simpl in Hid. replace (rc <? 0) with false by (symmetry; apply Z.ltb_ge; lia).
    unfold bind at 1. unfold get_app at 1.
    unfold bind at 1. unfold put_app at 1.
    rewrite parse_options_app. unfold bind at 1.
    match goal with |- context [parse_options pre ?s0] =>
      destruct (good_options_return pre s0 Hgood) as (s1 & Hrun1 & Hc1 & Hx1)
    end.
    rewrite Hrun1. simpl in Hc1, Hx1.
    simpl parse_options. unfold bind at 1.
    unfold asks_usage in Hu. unfold bad_container_id in Hbad.
    apply andb_true_iff in Hbad. destruct Hbad as (Hi & Hrc).
    destruct (opt o =? "h")%char; [discriminate | ].
    destruct (opt o =? "c")%char eqn:Hc.
    { apply Ascii.eqb_eq in Hc, Hi. rewrite Hc in Hi. discriminate. }
    destruct (opt o =? "a")%char eqn:Ha.
    { apply Ascii.eqb_eq in Ha, Hi. rewrite Ha in Hi. discriminate. }
    rewrite Hi.
    destruct (util_container_id PN_MAX_ADDR (optarg o) sizeof_char_ptr) as [rc' id'].
    simpl in Hrc. rewrite Hrc.
    eexists. split; [reflexivity | ]. simpl. rewrite Hc1, Hx1. auto.
Qed.

Lemma usage_ends_well (s0 s : state) :
  calls s = calls s0 -> ends_well s0 (usage s).
Proof.
  intros Hc. rewrite usage_exits. simpl. split; [now left | ].
  exists (map printf usage_lines). rewrite Hc. split; reflexivity.
Qed.

Lemma parse_options_ends_well (opts : list getopt_t) : forall (s0 s : state),
  calls s = calls s0 -> ends_well s0 (parse_options opts s).
Proof.
  induction opts as [ | o opts IH]; intros s0 s Hc.
  - exact Hc.
  - simpl. unfold bind at 1.
    match goal with
    | |- ends_well _ (match ?step s with _ => _ end) =>
        assert (Hstep : match step s with
                        | Returns _ s1 => calls s1 = calls s0
                        | o1 => ends_well s0 o1
                        end);
          [ | destruct (step s) as [[] s1 | c s1 | ]; auto ]
    end.
    destruct (opt o =? "h")%char; [now apply usage_ends_well | ].
    destruct (opt o =? "c")%char.
    { unfold bind, get_app, put_app. cbn [app message_count set_message_count].
      destruct (atoi (optarg o) <? 0); [now apply usage_ends_well | exact Hc]. }
    destruct (opt o =? "a")%char; [exact Hc | ].
    destruct (opt o =? "i")%char.
    { destruct (util_container_id PN_MAX_ADDR (optarg o) sizeof_char_ptr) as [rc id].
      destruct (rc <? 0); [ | exact Hc].
      simpl. split; [now right | ]. eexists. rewrite Hc. split; reflexivity. }
    destruct (opt o =? "t")%char; [exact Hc | ].
    destruct (opt o =? "p")%char; [exact Hc | ].
    destruct (opt o =? "P")%char; [exact Hc | ].
    destruct (opt o =? "u")%char; [exact Hc | ].
    now apply usage_ends_well.
Qed.

Lemma parse_args_ends_well (argv0 : string) (opts : list getopt_t) (s : state) :
  ends_well s (parse_args argv0 opts s).
Proof.
  unfold parse_args.
  destruct (util_container_id PN_MAX_ADDR argv0 sizeof_char_ptr) as [rc id].
  destruct (rc <? 0).
  - simpl. split; [now right | ]. eexists. split; reflexivity.
  - unfold bind at 1. unfold get_app at 1.
    unfold bind at 1. unfold put_app at 1.
    apply parse_options_ends_well. reflexivity.
Qed.

End CommandLineProperties.

Section MainProperties.

Context {lib : Library} {cli : CommandLine}.

(** X20. The exit status of the process is 0 or 1.  Over a library that
    keeps its contracts, [main] ends in one of three ways: [parse_args]
    exits, with status 0 or 1, after printing and before any call on
    the connection; or [run] returns and [main] returns [exit_code],
    which is 0 or 1; or [run] is still waiting for events.  No loop of
    the program fails to end. *)
Theorem main_exit_status
    (wire_size : pn_message_t -> Z) (text_size : pn_data_t -> Z) (fuel : nat)
    (argv0 : string) (opts : list getopt_t) (batches : list (list pn_event_t)) :
  codec_ok wire_size -> format_ok text_size -> (64 <= fuel)%nat ->
  (forall str, int_range (atoi str)) ->
  match main fuel argv0 opts batches start_state with
  | Returns (Some status) s => status = exit_code s /\ (status = 0 \/ status = 1)
  | Returns None s => exit_code s = 0 \/ exit_code s = 1
  | Exits status s =>
      (status = 0 \/ status = 1) /\ forallb is_print (calls s) = true
  | OutOfFuel => False
  end.
Proof.
  intros Hcodec Hformat Hfuel Hatoi. unfold main. unfold bind at 1.
  pose proof (parse_args_ends_well argv0 opts start_state) as Hend.
  destruct (parse_args argv0 opts start_state) as [[] s0 | status s0 | ] eqn:Hargs.
  - destruct (parse_args_returns _ _ _ _ Hatoi Hargs)
      as (_ & _ & _ & _ & _ & _ & _ & Hinit).
    destruct (Hinit eq_refl) as (Hs0 & (Hsent & Hack & Hbuf & Hcount)).
    assert (Ht : typed s0).
    { rewrite Hs0. unfold typed, buffer_ok, int_range, INT_MAX in *. simpl.
      rewrite Hbuf, Hsent. repeat split; try discriminate; lia. }
    assert (Hx : exit_code s0 = 0 \/ exit_code s0 = 1)
      by (rewrite Hs0; now left).
    destruct (run_returns wire_size text_size Hcodec Hformat fuel Hfuel batches s0 Ht Hx)
      as (b & s' & Hrun & _ & Hx').
    unfold bind. rewrite Hrun. destruct b; simpl; auto.
  - simpl in Hend. destruct Hend as (Hstatus & new & Hc & Hpr).
    split; [exact Hstatus | ]. rewrite Hc. exact Hpr.
  - exact Hend.
Qed.

End MainProperties.

(** ** The claims on the example session *)

Lemma example_codec (wire text : Z) :
  0 <= wire <= 2 ^ 63 ->
  @codec_ok (example_library wire text) (fun _ => wire).
Proof.
  intros H m. split; [exact H | ]. intros cap. simpl.
  destruct (cap <? wire) eqn:E.
  - apply Z.ltb_lt in E. split; [reflexivity | lia].
  - apply Z.ltb_ge in E. split; [lia | reflexivity].
Qed.

Lemma example_format (wire text : Z) :
  0 <= text <= 2 ^ 63 ->
  @format_ok (example_library wire text) (fun _ => text).
Proof.
  intros H d. split; [exact H | ]. intros len. simpl.
  destruct (len <? text) eqn:E.
  - apply Z.ltb_lt in E. split; [auto | lia].
  - apply Z.ltb_ge in E. split; [lia | discriminate].
Qed.

Lemma example_initial (count : Z) (topic : string) :
  0 <= count <= INT_MAX -> initial (example_app count topic).
Proof. intros H. repeat split; apply H. Qed.

Lemma example_typed (count : Z) (topic : string) :
  0 <= count <= INT_MAX -> typed (init_state (example_app count topic)).
Proof.
  intros H. unfold typed, buffer_ok, int_range, INT_MAX in *. simpl.
  repeat split; try discriminate; lia.
Qed.

Lemma small_sizes : 0 <= 40 <= 2 ^ 63 /\ 0 <= 300 <= 2 ^ 63.
Proof. split; split; discriminate. Qed.




Lemma link_flow_sends_witness :
  exists s',
    @handle (example_library 40 300) 64 (flow_event 5)
      (init_state (example_app 2 "orders")) = Returns true s' /\
    calls s'
    = [pn_delivery [1; 0; 0; 0];
       pn_link_send {| bytes_size := 40; bytes_of := message_for 1 |};
       pn_link_advance;
       pn_delivery [2; 0; 0; 0];
       pn_link_send {| bytes_size := 40; bytes_of := message_for 2 |};
       pn_link_advance] /\
    sent (app s') = 2.
Proof.
  destruct (@link_flow_sends (example_library 40 300) (fun _ => 40)
              (example_codec 40 300 (proj1 small_sizes))
              64 (le_n 64)
              (flow_event 5) (init_state (example_app 2 "orders"))
              (example_typed 2 "orders" ltac:(split; discriminate))
              eq_refl eq_refl eq_refl)
    as (s' & Hrun & _ & Hc & _ & Hs & _).
  exists s'. split; [exact Hrun | ]. split; [exact Hc | exact Hs].
Defined.

Lemma check_condition_only_when_set_witness :
  exists s',
    @check_condition (example_library 40 300) 64
      (delivery_event 1 PN_REJECTED a_condition) a_condition
      (init_state (example_app 2 "orders")) = Returns tt s' /\
    exit_code s' = 1 /\ close_requested (calls s') = true.
Proof.
  destruct (@check_condition_only_when_set (example_library 40 300)
              (fun _ => 300)
              (example_format 40 300 (proj2 small_sizes))
              64 (le_n 64)
              (delivery_event 1 PN_REJECTED a_condition) a_condition
              (init_state (example_app 2 "orders")))
    as (s' & Hrun & _ & Hset).
  destruct (Hset eq_refl) as (Hx & extra & Hpr & Hc).
  exists s'. split; [exact Hrun | ]. split; [exact Hx | ].
  rewrite Hc. simpl. unfold close_requested.
  rewrite existsb_app. simpl. apply orb_true_r.
Defined.

Lemma resolution_failure_stops_witness :
  exists s',
    @run (example_library 40 300) 64
      [[open_event PN_NULL; flow_event 5]; [event PN_TRANSPORT_CLOSED]]
      (init_state (example_app 2 long_topic)) = Returns false s' /\
    exit_code s' = 1 /\ sent (app s') = 0.
Proof.
  destruct (@resolution_failure_stops (example_library 40 300) 64
              (open_event PN_NULL) (init_state (example_app 2 long_topic))
              [flow_event 5] [[event PN_TRANSPORT_CLOSED]]
              eq_refl eq_refl)
    as (s' & _ & Hx & Hs & _ & _ & Hrun).
  exists s'. split; [exact Hrun | ]. split; [exact Hx | exact Hs].
Defined.

Lemma encode_message_terminates_witness :
  exists s',
    @encode_message (example_library 300 40) 64
      (init_state (example_app 2 "orders"))
    = Returns {| bytes_size := 300; bytes_of := message_for 0 |} s' /\
    size (message_buffer (app s')) = 512 /\
    300 <= capacity (message_buffer (app s')).
Proof.
  destruct (@encode_message_terminates (example_library 300 40)
              (fun _ => 300) (fun _ => 40)
              (example_codec 300 40 (proj2 small_sizes))
              (example_format 300 40 (proj1 small_sizes))
              64 (le_n 64)
              (init_state (example_app 2 "orders"))
              (example_typed 2 "orders" ltac:(split; discriminate)))
    as ((s' & k & Hrun & _ & _ & _ & Hfit & _) & _).
  exists s'. split; [exact Hrun | ]. split; [ | exact Hfit].
  vm_compute in Hrun. now injection Hrun as <-.
Defined.

Lemma rejected_delivery_witness :
  exists s',
    @handle (example_library 40 300) 64
      (delivery_event 1 PN_REJECTED no_condition)
      (init_state (example_app 2 "orders")) = Returns true s' /\
    exit_code s' = 1 /\ close_requested (calls s') = true /\
    messages (calls s') = [].
Proof.
  destruct (@rejected_delivery (example_library 40 300)
              (fun _ => 40) (fun _ => 300)
              (example_codec 40 300 (proj1 small_sizes))
              (example_format 40 300 (proj2 small_sizes))
              64 (le_n 64)
              (delivery_event 1 PN_REJECTED no_condition)
              (init_state (example_app 2 "orders"))
              (example_typed 2 "orders" ltac:(split; discriminate))
              eq_refl ltac:(discriminate))
    as (s' & Hrun & Hx & Hcl & _ & Hmsg & _).
  exists s'. repeat split; auto.
Defined.

Lemma sequence_numbers_from_one_witness :
  exists s,
    @handle_all (example_library 40 300) 64 [flow_event 5]
      (init_state (example_app 2 "orders")) = Returns tt s /\
    sent (app s) = 2 /\
    messages (calls s) = [message_for 1; message_for 2] /\
    deliveries (calls s) = [pn_dtag 1; pn_dtag 2].
Proof.
  destruct (@sequence_numbers_from_one (example_library 40 300)
              (fun _ => 40) (fun _ => 300)
              (example_codec 40 300 (proj1 small_sizes))
              (example_format 40 300 (proj2 small_sizes))
              64 (le_n 64)
              (example_app 2 "orders") [flow_event 5]
              (example_initial 2 "orders" ltac:(split; discriminate)))
    as (s & Hrun & _ & Hall & Hd & Hmsg & _).
  assert (Hs : sent (app s) = 2) by (apply Hall; vm_compute; discriminate).
  rewrite Hs in Hd, Hmsg.
  exists s. repeat split; auto.
Defined.

Lemma handle_continues_witness :
  exists s' s'',
    @handle (example_library 40 300) 64 (link_close_event a_condition)
      (init_state (example_app 2 "orders")) = Returns true s' /\
    @run (example_library 40 300) 64
      [[event PN_CONNECTION_INIT; open_event PN_NULL];
       [delivery_event 1 PN_REJECTED a_condition;
        link_close_event a_condition; event PN_TRANSPORT_CLOSED]]
      (init_state (example_app 2 "orders")) = Returns true s''.
Proof.
  destruct (@handle_continues (example_library 40 300)
              (fun _ => 40) (fun _ => 300)
              (example_codec 40 300 (proj1 small_sizes))
              (example_format 40 300 (proj2 small_sizes))
              64 (le_n 64)
              (link_close_event a_condition)
              (init_state (example_app 2 "orders"))
              (example_typed 2 "orders" ltac:(split; discriminate)))
    as (Hstep & Hloop).
  destruct Hstep as (s' & Hrun); [discriminate | discriminate | ].
  destruct (Hloop [[event PN_CONNECTION_INIT; open_event PN_NULL];
                   [delivery_event 1 PN_REJECTED a_condition;
                    link_close_event a_condition; event PN_TRANSPORT_CLOSED]])
    as (s'' & Hrun' & _).
  - vm_compute. repeat split.
  - exists s', s''. split; assumption.
Defined.

(** ** The further properties on the example session *)

Lemma link_flow_without_work_witness :
  @handle (example_library 40 300) 64 (flow_event 0)
    (init_state (example_app 2 "orders"))
  = Returns true (init_state (example_app 2 "orders")).
Proof.
  apply (@link_flow_without_work (example_library 40 300) 64 (flow_event 0)
           (init_state (example_app 2 "orders")) eq_refl).
  left. simpl. discriminate.
Defined.

Lemma only_link_flow_sends_witness :
  exists b s',
    @handle (example_library 40 300) 64
      (delivery_event 1 PN_ACCEPTED no_condition)
      (init_state (example_app 2 "orders")) = Returns b s' /\
    sent (app s') = 0 /\ deliveries (calls s') = [] /\ messages (calls s') = [].
Proof.
  apply (@only_link_flow_sends (example_library 40 300)
           (fun _ => 40) (fun _ => 300)
           (example_codec 40 300 (proj1 small_sizes))
           (example_format 40 300 (proj2 small_sizes))
           64 (le_n 64)
           (delivery_event 1 PN_ACCEPTED no_condition)
           (init_state (example_app 2 "orders"))
           (example_typed 2 "orders" ltac:(split; discriminate))).
  discriminate.
Defined.

Lemma connection_init_credentials_witness :
  exists s',
    @handle (example_library 40 300) 64 (event PN_CONNECTION_INIT)
      (init_state (set_password (example_app 2 "orders") (Some "secret"%string)))
    = Returns true s' /\
    calls s' = [pn_connection_set_container "producer:1"; pn_connection_open].
Proof.
  destruct (@connection_init_credentials (example_library 40 300) 64
              (event PN_CONNECTION_INIT)
              (init_state (set_password (example_app 2 "orders")
                             (Some "secret"%string)))
              eq_refl)
    as (s' & Hrun & _ & _ & Hc).
  exists s'. split; [exact Hrun | exact Hc].
Defined.

Lemma remote_open_attaches_witness :
  exists s',
    @handle (example_library 40 300) 64
      (open_event (PN_MAP [(PN_SYMBOL "topic-prefix", PN_STRING "acme/")]))
      (init_state (example_app 2 "orders")) = Returns true s' /\
    amqp_topic_prefix (app s') = "acme/"%string /\
    exit_code s' = 0.
Proof.
  destruct (@remote_open_attaches (example_library 40 300) 64
              (open_event (PN_MAP [(PN_SYMBOL "topic-prefix", PN_STRING "acme/")]))
              (init_state (example_app 2 "orders"))
              eq_refl eq_refl)
    as (s' & Hrun & Hp & _ & Hx & _).
  exists s'. split; [exact Hrun | ]. split; [exact Hp | exact Hx].
Defined.

Lemma remote_close_closes_witness :
  exists s' new,
    @handle (example_library 40 300) 64 (link_close_event a_condition)
      (init_state (example_app 2 "orders")) = Returns true s' /\
    exit_code s' = 1 /\ calls s' = new /\ close_requested new = true /\
    messages new = [].
Proof.
  destruct (@remote_close_closes (example_library 40 300)
              (fun _ => 40) (fun _ => 300)
              (example_codec 40 300 (proj1 small_sizes))
              (example_format 40 300 (proj2 small_sizes))
              64 (le_n 64)
              (link_close_event a_condition)
              (init_state (example_app 2 "orders"))
              (example_typed 2 "orders" ltac:(split; discriminate))
              (or_intror (or_intror (or_introl eq_refl))))
    as (s' & c & new & Hrun & Hcond & Hx & Hc & Hcl & Hmsg & _).
  injection Hcond as <-.
  exists s', new. split; [exact Hrun | ]. split; [exact Hx | ].
  split; [exact Hc | ]. split; [exact Hcl | exact Hmsg].
Defined.

Lemma exit_code_never_reset_witness :
  exists s',
    @handle_all (example_library 40 300) 64
      [flow_event 1; delivery_event 1 PN_REJECTED a_condition;
       delivery_event 1 PN_ACCEPTED no_condition]
      (init_state (example_app 2 "orders")) = Returns tt s' /\
    exit_code s' = 1.
Proof.
  destruct (@exit_code_never_reset (example_library 40 300)
              (fun _ => 40) (fun _ => 300)
              (example_codec 40 300 (proj1 small_sizes))
              (example_format 40 300 (proj2 small_sizes))
              64 (le_n 64)
              [flow_event 1; delivery_event 1 PN_REJECTED a_condition;
               delivery_event 1 PN_ACCEPTED no_condition]
              (init_state (example_app 2 "orders"))
              (example_typed 2 "orders" ltac:(split; discriminate)))
    as (s' & Hrun & _ & _ & _ & Hfail).
  exists s'. split; [exact Hrun | ].
  eapply (Hfail [flow_event 1] (delivery_event 1 PN_REJECTED a_condition)
            [delivery_event 1 PN_ACCEPTED no_condition]).
  - reflexivity.
  - vm_compute. reflexivity.
  - reflexivity.
Defined.

Lemma acknowledged_counts_accepted_witness :
  exists s',
    @handle_all (example_library 40 300) 64
      [flow_event 1; delivery_event 1 PN_ACCEPTED no_condition;
       delivery_event 1 PN_ACCEPTED no_condition]
      (init_state (example_app 2 "orders")) = Returns tt s' /\
    acknowledged (app s') = 2.
Proof.
  apply (@acknowledged_counts_accepted (example_library 40 300)
           (fun _ => 40) (fun _ => 300)
           (example_codec 40 300 (proj1 small_sizes))
           (example_format 40 300 (proj2 small_sizes))
           64 (le_n 64)
           [flow_event 1; delivery_event 1 PN_ACCEPTED no_condition;
            delivery_event 1 PN_ACCEPTED no_condition]
           (init_state (example_app 2 "orders"))
           (example_typed 2 "orders" ltac:(split; discriminate)));
    discriminate.
Defined.

Lemma encode_message_reuses_buffer_witness :
  @encode_message (example_library 40 300) 64
    (allocated (example_app 2 "orders") 128)
  = Returns {| bytes_size := 40; bytes_of := message_for 0 |}
      (allocated (example_app 2 "orders") 128).
Proof.
  exact (@encode_message_reuses_buffer (example_library 40 300) 64 (le_n 64)
           (allocated (example_app 2 "orders") 128) 40 eq_refl eq_refl).
Defined.

Lemma encode_message_grows_no_more_witness :
  exists b s',
    @encode_message (example_library 300 40) 64
      (init_state (example_app 2 "orders")) = Returns b s' /\
    (size (message_buffer (app s')) = 128 \/
     size (message_buffer (app s')) < 600).
Proof.
  apply (@encode_message_grows_no_more (example_library 300 40)
           (fun _ => 300)
           (example_codec 300 40 (proj2 small_sizes))
           64 (le_n 64)
           (init_state (example_app 2 "orders"))).
  discriminate.
Defined.

Lemma codec_error_exits_witness :
  exists s',
    @handle failing_library 64 (flow_event 5)
      (init_state (example_app 2 "orders")) = Exits 1 s' /\
    @run_batch failing_library 64
      [flow_event 5; delivery_event 1 PN_ACCEPTED no_condition]
      (init_state (example_app 2 "orders")) = Exits 1 s' /\
    sent (app s') = 1 /\ messages (calls s') = [].
Proof.
  destruct (@codec_error_exits failing_library 64 (le_n 64)
              (flow_event 5) (init_state (example_app 2 "orders"))
              [delivery_event 1 PN_ACCEPTED no_condition] PN_ARG_ERR 0
              eq_refl eq_refl
              ltac:(split; [discriminate | reflexivity])
              ltac:(discriminate) eq_refl
              ltac:(discriminate) ltac:(discriminate))
    as (s' & Hrun & Hbatch & Hs & _ & Hmsg).
  exists s'. split; [exact Hrun | ]. split; [exact Hbatch | ].
  split; [exact Hs | exact Hmsg].
Defined.

Lemma check_condition_lines_witness :
  exists s' lines buf,
    @check_condition (example_library 40 300) 64
      (link_close_event a_condition) a_condition
      (init_state (example_app 2 "orders")) = Returns tt s' /\
    calls s'
    = [fprintf_stderr
         ("PN_LINK_REMOTE_CLOSE: amqp:not-allowed: rejected" ++ nl)%string]
      ++ lines ++ [pn_connection_close] /\
    lines = [fprintf_stderr ("Err info: " ++ buf ++ nl)%string].
Proof.
  destruct (@check_condition_lines (example_library 40 300)
              (fun _ => 300)
              (example_format 40 300 (proj2 small_sizes))
              64 (le_n 64)
              (link_close_event a_condition) a_condition
              (init_state (example_app 2 "orders")) eq_refl)
    as (s' & lines & Hrun & _ & Hc & buf & Hlines).
  exists s', lines, buf. split; [exact Hrun | ]. split; [exact Hc | exact Hlines].
Defined.

Lemma sends_are_distinct_witness :
  exists s,
    @handle_all (example_library 40 300) 64 [flow_event 1; flow_event 5]
      (init_state (example_app 2 "orders")) = Returns tt s /\
    NoDup (deliveries (calls s)) /\ NoDup (messages (calls s)).
Proof.
  destruct (@sends_are_distinct (example_library 40 300)
              (fun _ => 40) (fun _ => 300)
              (example_codec 40 300 (proj1 small_sizes))
              (example_format 40 300 (proj2 small_sizes))
              64 (le_n 64)
              (example_app 2 "orders") [flow_event 1; flow_event 5]
              (example_initial 2 "orders" ltac:(split; discriminate)))
    as (s & Hrun & Hd & Hmsg & _).
  exists s. split; [exact Hrun | ]. split; [exact Hd | exact Hmsg].
Defined.

Lemma prefix_changes_only_at_open_witness :
  exists b s',
    @handle (example_library 40 300) 64 (flow_event 5)
      (init_state (example_app 2 "orders")) = Returns b s' /\
    amqp_topic_prefix (app s') = "topic://"%string.
Proof.
  apply (@prefix_changes_only_at_open (example_library 40 300)
           (fun _ => 40) (fun _ => 300)
           (example_codec 40 300 (proj1 small_sizes))
           (example_format 40 300 (proj2 small_sizes))
           64 (le_n 64)
           (flow_event 5) (init_state (example_app 2 "orders"))
           (example_typed 2 "orders" ltac:(split; discriminate))).
  discriminate.
Defined.

Lemma sent_follows_credit_witness :
  exists s',
    @handle_all (example_library 40 300) 64
      [flow_event 1; delivery_event 1 PN_ACCEPTED no_condition; flow_event 5]
      (init_state (example_app 3 "orders")) = Returns tt s' /\
    sent (app s') = 3 /\
    List.length (messages (calls s')) = Z.to_nat (sent (app s') - 0).
Proof.
  apply (@sent_follows_credit (example_library 40 300)
           (fun _ => 40) (fun _ => 300)
           (example_codec 40 300 (proj1 small_sizes))
           (example_format 40 300 (proj2 small_sizes))
           64 (le_n 64)
           [flow_event 1; delivery_event 1 PN_ACCEPTED no_condition; flow_event 5]
           (init_state (example_app 3 "orders"))
           (example_typed 3 "orders" ltac:(split; discriminate))).
Defined.

Lemma sprintf_sequence_fits_witness :
  Z.of_nat (String.length (sprintf_sequence (- 2147483648))) + 1 <= slen.
Proof.
  apply (sprintf_sequence_fits (- 2147483648)).
  split; discriminate.
Defined.

Lemma int_wrap_range (x : Z) : int_range (int_wrap x).
Proof.
  unfold int_range, int_wrap, INT_MAX.
  pose proof (Z.mod_pos_bound (x + 2 ^ 31) (2 ^ 32) eq_refl). lia.
Qed.

Lemma example_atoi (str : string) : int_range (@atoi example_cli str).
Proof. apply int_wrap_range. Qed.

Lemma parse_args_leaves_initial_witness :
  exists s',
    @parse_args example_cli "producer"
      [option_of "c" "3"; option_of "t" "orders"; option_of "P" "secret"]
      start_state = Returns tt s' /\
    0 <= message_count (app s') <= INT_MAX /\
    amqp_topic_prefix (app s') = "topic://"%string /\
    s' = init_state (app s') /\ initial (app s').
Proof.
  destruct (@parse_args example_cli "producer"
              [option_of "c" "3"; option_of "t" "orders"; option_of "P" "secret"]
              start_state) as [[] s' | status s' | ] eqn:Hrun;
    [ | vm_compute in Hrun; discriminate Hrun
      | vm_compute in Hrun; discriminate Hrun].
  destruct (@parse_args_leaves_initial example_cli _ _ _ _ example_atoi Hrun)
    as (Hcount & Hprefix & _ & _ & _ & _ & _ & Hinit).
  exists s'. split; [reflexivity | ]. split; [exact Hcount | ].
  split; [exact Hprefix | ]. apply Hinit. reflexivity.
Defined.

Lemma parse_args_usage_exit_witness :
  exists s',
    @parse_args example_cli "producer"
      [option_of "t" "orders"; option_of "c" "-1"; option_of "a" "broker"]
      start_state = Exits 0 s' /\
    calls s' = map printf usage_lines.
Proof.
  destruct (@parse_args_usage_exit example_cli "producer"
              [option_of "t" "orders"] [option_of "a" "broker"]
              (option_of "c" "-1") start_state)
    as (s' & Hrun & Hc & _).
  - vm_compute. discriminate.
  - repeat constructor.
  - vm_compute. reflexivity.
  - exists s'. split; [exact Hrun | exact Hc].
Defined.

Lemma container_id_failure_exits_witness :
  @parse_args example_cli long_topic [option_of "h" ""] start_state
  = Exits 1 {| app := zero_app; exit_code := 0;
               calls := [fprintf_stderr
                           ("Unable to format container id from source: "
                            ++ long_topic)%string] |} /\
  exists s',
    @parse_args example_cli "producer"
      [option_of "t" "orders"; option_of "i" long_topic; option_of "h" ""]
      start_state = Exits 1 s' /\
    calls s' = [fprintf_stderr
                  ("Unable to format container id from source: "
                   ++ long_topic)%string].
Proof.
  split.
  - apply (proj1 (@container_id_failure_exits example_cli long_topic
                    [] [] (option_of "h" "") start_state)).
    vm_compute. reflexivity.
  - destruct (proj2 (@container_id_failure_exits example_cli "producer"
                       [option_of "t" "orders"] [option_of "h" ""]
                       (option_of "i" long_topic) start_state))
      as (s' & Hrun & Hc & _).
    + vm_compute. discriminate.
    + repeat constructor.
    + reflexivity.
    + vm_compute. reflexivity.
    + exists s'. split; [exact Hrun | exact Hc].
Defined.

Lemma main_exit_status_witness :
  exists status s,
    @main example_cli (example_library 40 300) 64 "producer"
      [option_of "c" "2"; option_of "t" "orders"]
      (two_message_run ++ [[event PN_PROACTOR_INACTIVE]])
      start_state = Returns (Some status) s /\
    status = exit_code s /\ (status = 0 \/ status = 1).
Proof.
  pose proof (@main_exit_status (example_library 40 300) example_cli
                (fun _ => 40) (fun _ => 300) 64 "producer"
                [option_of "c" "2"; option_of "t" "orders"]
                (two_message_run ++ [[event PN_PROACTOR_INACTIVE]])
                (example_codec 40 300 (proj1 small_sizes))
                (example_format 40 300 (proj2 small_sizes))
                (le_n 64) example_atoi) as Hmain.
  destruct (@main example_cli (example_library 40 300) 64 "producer"
              [option_of "c" "2"; option_of "t" "orders"]
              (two_message_run ++ [[event PN_PROACTOR_INACTIVE]])
              start_state) as [[status | ] s | status s | ] eqn:Hrun;
    [ | vm_compute in Hrun; discriminate Hrun
      | vm_compute in Hrun; discriminate Hrun
      | destruct Hmain].
  exists status, s. split; [reflexivity | exact Hmain].
Defined.

(** ** Where the code departs from the claims as stated *)



(** C4 as stated fails: on a condition that is not set
    [check_condition] leaves the exit code at 0 and does not ask the
    connection to close. *)
Lemma check_condition_unset_does_nothing :
  exists s',
    @check_condition (example_library 40 300) 64
      (event PN_TRANSPORT_CLOSED) no_condition
      (init_state (example_app 10 "orders")) = Returns tt s' /\
    exit_code s' = 0 /\ exit_code s' <> 1 /\
    close_requested (calls s') = false.
Proof.
  eexists. split; [reflexivity | ]. simpl. repeat split. discriminate.
Qed.

(** C5 as stated fails: when the address does not resolve, [run]
    returns on that event: the link close and the transport close that
    were pending are not handled, and the handler did not ask the
    connection to close. *)
Lemma run_stops_at_once :
  exists s',
    @handle (example_library 40 300) 64 (open_event PN_NULL)
      (init_state (example_app 10 long_topic)) = Returns false s' /\
    @run (example_library 40 300) 64
      [[open_event PN_NULL; link_close_event a_condition];
       [event PN_TRANSPORT_CLOSED]]
      (init_state (example_app 10 long_topic)) = Returns false s' /\
    calls s' = [pn_session_open; pn_sender "my_sender"] /\
    close_requested (calls s') = false.
Proof.
  eexists. split; [vm_compute; reflexivity | ].
  split; [vm_compute; reflexivity | ]. split; reflexivity.
Qed.

(** C7 as stated fails: after delivery 1 is rejected, a link-flow event
    with one unit of credit has message 2 sent on the link. *)
Lemma message_sent_after_rejection :
  exists s1 s2,
    @handle_all (example_library 40 300) 64
      [flow_event 1; delivery_event 1 PN_REJECTED a_condition]
      (init_state (example_app 10 "orders")) = Returns tt s1 /\
    exit_code s1 = 1 /\ close_requested (calls s1) = true /\
    @handle (example_library 40 300) 64 (flow_event 1) s1 = Returns true s2 /\
    messages (calls s1) = [message_for 1] /\
    messages (calls s2) = [message_for 1; message_for 2] /\
    messages (calls s2) <> messages (calls s1).
Proof.
  eexists. eexists. split; [vm_compute; reflexivity | ].
  split; [reflexivity | ]. split; [reflexivity | ].
  split; [vm_compute; reflexivity | ].
  split; [reflexivity | ]. split; [reflexivity | ]. discriminate.
Qed.

(** A run for a count of 0: the counters are equal to the count from
    the start, and nothing makes the producer ask for the close. *)
Example run_for_no_message :
  exists s,
    @run (example_library 40 300) 64
      [[event PN_CONNECTION_INIT]; [open_event PN_NULL; flow_event 5];
       [event PN_PROACTOR_INACTIVE]]
      (init_state (example_app 0 "orders")) = Returns false s /\
    sent (app s) = 0 /\ acknowledged (app s) = 0 /\ exit_code s = 0 /\
    close_requested (calls s) = false.
Proof.
  eexists. split; [vm_compute; reflexivity | ]. repeat split.
Qed.
